(** * Wedding invitation site: the RSVP client gateway

    A shallow embedding of the RSVP helpers of [src/App.jsx] (and of its
    copies under [src/pages/home]): the endpoint configuration check, the
    two request builders, the normalisation of listed rows, the CSV
    serialiser and the validation predicate, over a model of the
    JavaScript values that travel through them. *)

From Stdlib Require Import ZArith String Ascii List Bool Lia DecimalString.
From Stdlib Require Import PrimFloat SpecFloat FloatOps.
From Stdlib Require FloatAxioms.
Import ListNotations.

Set Warnings "-register-all".
Local Open Scope string_scope.

#[global] Arguments Ascii.eqb : simpl never.
#[global] Arguments String.eqb : simpl never.

(** ** Strings

    A JavaScript string is held as the bytes of its UTF-8 encoding.  The
    code only inspects ASCII characters (quote, comma, line feed, question
    mark, the letters of "http"), which are single bytes that never occur
    inside a multi-byte sequence, so byte-wise and code-unit-wise
    processing agree. *)
Module Str.

Definition chr (n : nat) : ascii := ascii_of_nat n.

Definition LF : ascii := Eval cbv in chr 10.
Definition CR : ascii := Eval cbv in chr 13.
Definition DQUOTE : ascii := Eval cbv in chr 34.
Definition COMMA : ascii := Eval cbv in chr 44.

Definition one (c : ascii) : string := String c EmptyString.

(** [Array.prototype.join] on strings. *)
Fixpoint join (sep : string) (l : list string) : string :=
  match l with
  | [] => ""
  | [x] => x
  | x :: rest => x ++ sep ++ join sep rest
  end.

(** [s.includes(c)] for a one-character needle. *)
Fixpoint has_char (c : ascii) (s : string) : bool :=
  match s with
  | EmptyString => false
  | String d r => Ascii.eqb c d || has_char c r
  end.

(** [s.startsWith(p)]. *)
Definition startsWith (p s : string) : bool := String.prefix p s.

Fixpoint repeat_char (c : ascii) (n : nat) : string :=
  match n with
  | O => ""
  | S k => String c (repeat_char c k)
  end.

Fixpoint take (n : nat) (s : string) : string :=
  match n, s with
  | S k, String c r => String c (take k r)
  | _, _ => ""
  end.

Fixpoint drop (n : nat) (s : string) : string :=
  match n, s with
  | S k, String _ r => drop k r
  | _, _ => s
  end.

End Str.

(** ** Numbers

    A JavaScript number is an IEEE-754 binary64 value, that is, a
    primitive [float].  Conversions between numbers and decimal text go
    through exact integer arithmetic and the rounding functions of
    [SpecFloat]. *)
Module Num.

Definition number := float.

Definition NaN : number := nan.

Definition of_Z (z : Z) : number := SF2Prim (binary_normalize prec emax z 0 false).

(** Nearest binary64 (ties to even) of [(-1)^neg * s * 10^p]. *)
Definition round_dec (neg : bool) (s : positive) (p : Z) : spec_float :=
  if (0 <=? p)%Z
  then binary_normalize prec emax (cond_Zopp neg (Zpos s * 10 ^ p)) 0 false
  else SFdiv prec emax (S754_finite neg s 0)
                       (S754_finite false (Z.to_pos (10 ^ (- p))) 0).

Definition digits_of_pos (p : positive) : string :=
  NilEmpty.string_of_uint (Pos.to_uint p).

Definition digits_of_Z (z : Z) : string :=
  match z with
  | Z0 => "0"
  | Zpos p => digits_of_pos p
  | Zneg p => digits_of_pos p
  end.

Definition ndigits (p : positive) : Z := Z.of_nat (String.length (digits_of_pos p)).

(** [floor (num / den / 10^p)] for positive [num], [den]. *)
Definition scaled_floor (num den p : Z) : Z :=
  if (0 <=? p)%Z then (num / (den * 10 ^ p))%Z else ((num * 10 ^ (- p)) / den)%Z.

(** Comparison of [c * 10^p] with [num / den]. *)
Definition cmp_dec (c p num den : Z) : comparison :=
  if (0 <=? p)%Z then (c * 10 ^ p * den ?= num)%Z
  else (c * den ?= num * 10 ^ (- p))%Z.

(** The decimal exponent [n] of [num / den]: [10^(n-1) <= num/den < 10^n]. *)
Definition dec_exponent (num den : positive) : Z :=
  let t := (ndigits num - ndigits den)%Z in
  match cmp_dec 1 t (Zpos num) (Zpos den) with
  | Gt => t
  | _ => (t + 1)%Z
  end.

(** Search for the shortest decimal [s * 10^(n-k)] ([k] digits in [s])
    that reads back as the positive finite value [m * 2^e]; of the two
    [k]-digit neighbours the closer one is taken.  This is the choice of
    [n], [k], [s] in Number::toString. *)
Fixpoint shortest_from (fuel : nat) (k : Z) (m : positive) (e : Z)
    (num den : positive) (n0 : Z) : Z * Z :=
  let p := (n0 - k)%Z in
  let lo := scaled_floor (Zpos num) (Zpos den) p in
  let hi := (lo + 1)%Z in
  let ok c :=
    match c with
    | Zpos cp => SFeqb (round_dec false cp p) (S754_finite false m e)
    | _ => false
    end in
  let pick c :=
    if (c =? 10 ^ k)%Z then (10 ^ (k - 1), n0 + 1)%Z else (c, n0) in
  match fuel with
  | O => pick lo
  | S fuel' =>
      match ok lo, ok hi with
      | true, false => pick lo
      | false, true => pick hi
      | true, true =>
          match cmp_dec (2 * lo + 1) p (2 * Zpos num) (Zpos den) with
          | Gt => pick lo
          | Lt => pick hi
          | Eq => if Z.even lo then pick lo else pick hi
          end
      | false, false => shortest_from fuel' (k + 1)%Z m e num den n0
      end
  end.

Definition shortest (m : positive) (e : Z) : Z * Z :=
  let num := (m * Z.to_pos (2 ^ Z.max e 0))%positive in
  let den := Z.to_pos (2 ^ Z.max (- e) 0) in
  shortest_from 17 1 m e num den (dec_exponent num den).

(** Number::toString(x) of ECMAScript, radix 10. *)
Definition format_pos (m : positive) (e : Z) : string :=
  let '(s, n) := shortest m e in
  let ds := digits_of_Z s in
  let k := Z.of_nat (String.length ds) in
  if ((k <=? n) && (n <=? 21))%Z then
    ds ++ Str.repeat_char "0" (Z.to_nat (n - k))
  else if ((0 <? n) && (n <=? 21))%Z then
    Str.take (Z.to_nat n) ds ++ "." ++ Str.drop (Z.to_nat n) ds
  else if ((-6 <? n) && (n <=? 0))%Z then
    "0." ++ Str.repeat_char "0" (Z.to_nat (- n)) ++ ds
  else
    let ex := (n - 1)%Z in
    let sg := if (ex <? 0)%Z then "-" else "+" in
    let mant := if (k =? 1)%Z then ds else Str.take 1 ds ++ "." ++ Str.drop 1 ds in
    mant ++ "e" ++ sg ++ digits_of_Z ex.

Definition toString (x : number) : string :=
  match Prim2SF x with
  | S754_nan => "NaN"
  | S754_zero _ => "0"
  | S754_infinity false => "Infinity"
  | S754_infinity true => "-Infinity"
  | S754_finite false m e => format_pos m e
  | S754_finite true m e => "-" ++ format_pos m e
  end.


(** *** StringToNumber

    The grammar StringNumericLiteral of ECMAScript: optional white space
    around an optionally signed decimal literal (with fraction and
    exponent), [Infinity], or an unsigned binary, octal or hexadecimal
    integer; the empty or blank string is [+0]; anything else is [NaN]. *)

Definition code (c : ascii) : nat := nat_of_ascii c.

Definition is_ws1 (a : nat) : bool :=
  ((9 <=? a) && (a <=? 13) || (a =? 32))%nat.

(** U+00A0 *)
Definition is_ws2 (a b : nat) : bool := ((a =? 194) && (b =? 160))%nat.

(** U+1680, U+2000..U+200A, U+2028, U+2029, U+202F, U+205F, U+3000, U+FEFF *)
Definition is_ws3 (a b c : nat) : bool :=
  ((a =? 225) && (b =? 154) && (c =? 128)
   || (a =? 226) && (b =? 128)
      && ((128 <=? c) && (c <=? 138) || (c =? 168) || (c =? 169) || (c =? 175))
   || (a =? 226) && (b =? 129) && (c =? 159)
   || (a =? 227) && (b =? 128) && (c =? 128)
   || (a =? 239) && (b =? 187) && (c =? 191))%nat.

(** Does a StrWhiteSpaceChar start at the head of [s]? *)
Definition starts_ws (s : string) : bool :=
  match s with
  | String a r1 =>
      is_ws1 (code a)
      || match r1 with
         | String b r2 =>
             is_ws2 (code a) (code b)
             || match r2 with
                | String c _ => is_ws3 (code a) (code b) (code c)
                | EmptyString => false
                end
         | EmptyString => false
         end
  | EmptyString => false
  end.

Fixpoint skip_ws (s : string) : string :=
  match s with
  | String a r1 =>
      if is_ws1 (code a) then skip_ws r1
      else
        match r1 with
        | String b r2 =>
            if is_ws2 (code a) (code b) then skip_ws r2
            else
              match r2 with
              | String c r3 =>
                  if is_ws3 (code a) (code b) (code c) then skip_ws r3 else s
              | EmptyString => s
              end
        | EmptyString => s
        end
  | EmptyString => s
  end.

(** The longest prefix in which no white space character starts, and
    what follows it. *)
Fixpoint span_non_ws (s : string) : string * string :=
  match s with
  | String a r =>
      if starts_ws s then ("", s)
      else let '(body, rest) := span_non_ws r in (String a body, rest)
  | EmptyString => ("", "")
  end.

Fixpoint span (p : ascii -> bool) (s : string) : string * string :=
  match s with
  | String a r =>
      if p a then let '(x, y) := span p r in (String a x, y) else ("", s)
  | EmptyString => ("", "")
  end.

Definition is_digit (c : ascii) : bool := ((48 <=? code c) && (code c <=? 57))%nat.

(** Value of a digit in radix up to 16; [None] if [c] is no digit of [radix]. *)
Definition digit_val (radix : Z) (c : ascii) : option Z :=
  let a := Z.of_nat (code c) in
  let v :=
    if ((48 <=? a) && (a <=? 57))%Z then (a - 48)%Z
    else if ((97 <=? a) && (a <=? 102))%Z then (a - 87)%Z
    else if ((65 <=? a) && (a <=? 70))%Z then (a - 55)%Z
    else (-1)%Z in
  if ((0 <=? v) && (v <? radix))%Z then Some v else None.

(** The integer written by [s] in [radix], most significant digit first. *)
Fixpoint digits_val (radix : Z) (acc : Z) (s : string) : option Z :=
  match s with
  | EmptyString => Some acc
  | String c r =>
      match digit_val radix c with
      | Some d => digits_val radix (acc * radix + d)%Z r
      | None => None
      end
  end.

Definition of_mv (neg : bool) (m : Z) (p : Z) : number :=
  match m with
  | Zpos mp => SF2Prim (round_dec neg mp p)
  | _ => if neg then neg_zero else zero
  end.

(** NonDecimalIntegerLiteral: [0x], [0o], [0b] prefixes, at least one digit. *)
Definition parse_radix (radix : Z) (ds : string) : number :=
  match ds with
  | EmptyString => NaN
  | _ => match digits_val radix 0 ds with
         | Some v => of_mv false v 0
         | None => NaN
         end
  end.

(** ExponentPart_opt at the end of the literal: [Some 0] when absent. *)
Definition parse_exponent (s : string) : option Z :=
  match s with
  | EmptyString => Some 0%Z
  | String c r =>
      if (Ascii.eqb c "e" || Ascii.eqb c "E")%char then
        let '(neg, ds) :=
          match r with
          | String "+"%char r' => (false, r')
          | String "-"%char r' => (true, r')
          | _ => (false, r)
          end in
        match ds with
        | EmptyString => None
        | _ => match digits_val 10 0 ds with
               | Some v => Some (if neg then (- v)%Z else v)
               | None => None
               end
        end
      else None
  end.

(** StrUnsignedDecimalLiteral, with the sign already read. *)
Definition parse_unsigned (neg : bool) (s : string) : number :=
  if String.eqb s "Infinity" then (if neg then neg_infinity else infinity)
  else
    let '(d1, r1) := span is_digit s in
    let '(d2, r2) :=
      match r1 with
      | String "."%char r => span is_digit r
      | _ => ("", r1)
      end in
    match (d1 ++ d2)%string with
    | EmptyString => NaN
    | ds =>
        match digits_val 10 0 ds, parse_exponent r2 with
        | Some m, Some ex => of_mv neg m (ex - Z.of_nat (String.length d2))
        | _, _ => NaN
        end
    end.

Definition parse_literal (s : string) : number :=
  match s with
  | String "0"%char (String "x"%char r) | String "0"%char (String "X"%char r) =>
      parse_radix 16 r
  | String "0"%char (String "o"%char r) | String "0"%char (String "O"%char r) =>
      parse_radix 8 r
  | String "0"%char (String "b"%char r) | String "0"%char (String "B"%char r) =>
      parse_radix 2 r
  | String "+"%char r => parse_unsigned false r
  | String "-"%char r => parse_unsigned true r
  | _ => parse_unsigned false s
  end.

Definition StringToNumber (s : string) : number :=
  let '(body, rest) := span_non_ws (skip_ws s) in
  match skip_ws rest with
  | EmptyString =>
      match body with
      | EmptyString => zero
      | _ => parse_literal body
      end
  | _ => NaN
  end.

(** [x ? ... : ...] on a number: false for [+0], [-0] and [NaN]. *)
Definition truthy (x : number) : bool :=
  negb (PrimFloat.eqb x zero) && negb (is_nan x).

Global Arguments truthy : simpl never.

End Num.

(** ** Values

    The values that reach the helpers: what [JSON.parse] can produce,
    plus [undefined].  An object lists its own enumerable string-keyed
    properties in the order [Object.keys] reports them. *)
Module JS.

Import Num.

Inductive value : Type :=
| VUndef
| VNull
| VBool (b : bool)
| VNum (n : number)
| VStr (s : string)
| VArr (elems : list value)
| VObj (props : list (string * value)).

Definition object := list (string * value).

(** Result of an expression that may throw. *)
Inductive outcome (A : Type) : Type :=
| Return (a : A)
| Throw (err : string).
Arguments Return {A} a.
Arguments Throw {A} err.

Definition obind {A B} (m : outcome A) (f : A -> outcome B) : outcome B :=
  match m with
  | Return a => f a
  | Throw e => Throw e
  end.

Definition omap {A B} (f : A -> B) (m : outcome A) : outcome B :=
  obind m (fun a => Return (f a)).

(** [xs.map(f)] with a callback that may throw: the first exception
    aborts the traversal. *)
Fixpoint mapM {A B} (f : A -> outcome B) (xs : list A) : outcome (list B) :=
  match xs with
  | [] => Return []
  | x :: rest =>
      obind (f x) (fun y => obind (mapM f rest) (fun ys => Return (y :: ys)))
  end.

(** ToBoolean *)
Definition ToBoolean (v : value) : bool :=
  match v with
  | VUndef | VNull => false
  | VBool b => b
  | VNum n => Num.truthy n
  | VStr s => negb (String.eqb s "")
  | VArr _ | VObj _ => true
  end.

(** [v == null] *)
Definition is_nullish (v : value) : bool :=
  match v with
  | VUndef | VNull => true
  | _ => false
  end.

(** [String(v)]: ToString, with [Array.prototype.join] for arrays and
    [Object.prototype.toString] for plain objects. *)
Fixpoint ToString (v : value) : string :=
  match v with
  | VUndef => "undefined"
  | VNull => "null"
  | VBool true => "true"
  | VBool false => "false"
  | VNum n => Num.toString n
  | VStr s => s
  | VArr elems =>
      (fix join_elems (l : list value) : string :=
         match l with
         | [] => ""
         | x :: rest =>
             let sx := match x with
                       | VUndef | VNull => ""
                       | _ => ToString x
                       end in
             match rest with
             | [] => sx
             | _ :: _ => sx ++ "," ++ join_elems rest
             end
         end) elems
  | VObj _ => "[object Object]"
  end.

(** [Number(v)]: ToNumber; arrays and plain objects go through their
    string form. *)
Definition ToNumber (v : value) : number :=
  match v with
  | VUndef => NaN
  | VNull => zero
  | VBool true => one
  | VBool false => zero
  | VNum n => n
  | VStr s => StringToNumber s
  | VArr _ | VObj _ => StringToNumber (ToString v)
  end.

(** Own property of an object, [undefined] when absent. *)
Fixpoint lookup (k : string) (props : object) : value :=
  match props with
  | [] => VUndef
  | (k', v) :: rest => if String.eqb k k' then v else lookup k rest
  end.

Definition keys (o : object) : list string := map fst o.
Definition values (o : object) : list value := map snd o.

(** [v.k] for the property names the code reads ([name], [Name],
    [full_name], [email], [Email], [attending], [Attending], [guests],
    [Guests], [message], [Message], [timestamp], [Timestamp], [time],
    [Time], [rows]).  Reading a property of [null] or [undefined] is a
    TypeError; none of these names is an own or inherited property of an
    array, a string, a number or a boolean. *)
Definition getProp (v : value) (k : string) : outcome value :=
  match v with
  | VUndef | VNull => Throw "TypeError"
  | VObj props => Return (lookup k props)
  | VBool _ | VNum _ | VStr _ | VArr _ => Return VUndef
  end.

(** [a || b]: [b] is only evaluated when [a] is falsy. *)
Definition or_else (a b : outcome value) : outcome value :=
  obind a (fun x => if ToBoolean x then Return x else b).

(** [a && b]: [b] is only evaluated when [a] is truthy. *)
Definition and_then (a b : outcome value) : outcome value :=
  obind a (fun x => if ToBoolean x then b else Return x).

Declare Scope js_scope.
Delimit Scope js_scope with js.
Notation "a <|> b" := (or_else a b) (at level 51, left associativity) : js_scope.
Notation "a <&> b" := (and_then a b) (at level 41, left associativity) : js_scope.

(** *** JSON.stringify *)

Definition hex_digit (upper : bool) (n : nat) : ascii :=
  if (n <? 10)%nat then ascii_of_nat (48 + n)
  else ascii_of_nat ((if upper then 55 else 87) + n).

Definition hex2 (upper : bool) (c : ascii) : string :=
  let n := nat_of_ascii c in
  String (hex_digit upper (n / 16)) (String (hex_digit upper (n mod 16)) "").

Definition json_escape (c : ascii) : string :=
  let n := nat_of_ascii c in
  if (n =? 8)%nat then "\b"
  else if (n =? 9)%nat then "\t"
  else if (n =? 10)%nat then "\n"
  else if (n =? 12)%nat then "\f"
  else if (n =? 13)%nat then "\r"
  else if (n =? 34)%nat then String "\"%char (Str.one Str.DQUOTE)
  else if (n =? 92)%nat then "\\"
  else if (n <? 32)%nat then "\u00" ++ hex2 false c
  else Str.one c.

Fixpoint json_escape_all (s : string) : string :=
  match s with
  | EmptyString => ""
  | String c r => json_escape c ++ json_escape_all r
  end.

Definition QuoteJSONString (s : string) : string :=
  Str.one Str.DQUOTE ++ json_escape_all s ++ Str.one Str.DQUOTE.

(** [None] is the [undefined] that JSON.stringify returns for
    [undefined]; such a property is left out of an object and written
    [null] in an array. *)
Fixpoint JSON_stringify (v : value) : option string :=
  match v with
  | VUndef => None
  | VNull => Some "null"
  | VBool true => Some "true"
  | VBool false => Some "false"
  | VNum n => Some (if is_finite n then Num.toString n else "null")
  | VStr s => Some (QuoteJSONString s)
  | VArr elems =>
      Some ("[" ++ Str.join ","
              (map (fun x => match JSON_stringify x with
                             | Some s => s
                             | None => "null"
                             end) elems) ++ "]")
  | VObj props =>
      Some ("{" ++ Str.join ","
              ((fix members (l : list (string * value)) : list string :=
                  match l with
                  | [] => []
                  | (k, x) :: rest =>
                      match JSON_stringify x with
                      | Some s => (QuoteJSONString k ++ ":" ++ s) :: members rest
                      | None => members rest
                      end
                  end) props) ++ "}")
  end.

End JS.

(** ** The RSVP client gateway ([src/App.jsx]) *)
Module Gateway.

Import JS.
Local Open Scope js_scope.

(** *** Pure helpers *)

(** [validateRSVP(entry)]: [Boolean(entry && entry.name && entry.email)]. *)
Definition validateRSVP (entry : value) : outcome bool :=
  omap ToBoolean
    (Return entry <&> getProp entry "name" <&> getProp entry "email").

(** The regular expression test in [processRow]: does [val] contain a
    double quote, a comma or a line feed? *)
Definition needsQuotes (val : string) : bool :=
  Str.has_char Str.DQUOTE val || Str.has_char Str.COMMA val
  || Str.has_char Str.LF val.

(** The global [replace] in [processRow]: every double quote is doubled. *)
Fixpoint escape_quotes (val : string) : string :=
  match val with
  | EmptyString => ""
  | String c r =>
      if Ascii.eqb c Str.DQUOTE
      then String Str.DQUOTE (String Str.DQUOTE (escape_quotes r))
      else String c (escape_quotes r)
  end.

(** The callback of [Object.values(row).map(...)] in [processRow]. *)
Definition csvCell (v : value) : string :=
  let val := if is_nullish v then "" else ToString v in
  let needs := needsQuotes val in
  let escaped := escape_quotes val in
  if needs then Str.one Str.DQUOTE ++ escaped ++ Str.one Str.DQUOTE else escaped.

Definition processRow (row : object) : string :=
  Str.join "," (map csvCell (values row)).

(** [rowsToCSV(rows)], on an array of plain objects (what [downloadCSV]
    passes: the normalised list). *)
Definition rowsToCSV (rows : list object) : string :=
  let header := Str.join "," (keys (hd [] rows)) in
  Str.join (Str.one Str.LF) (header :: map processRow rows).

(** *** Normalisation of listed rows (the callbacks of [refreshRSVPs]) *)

(** The callback of [rows.map]: each field is the first truthy value
    along its chain of property names, or the empty string ([0] for
    guests, which then goes through [Number]). *)
Definition normalizeRow (r : value) : outcome object :=
  obind (getProp r "name" <|> getProp r "Name" <|> getProp r "full_name"
         <|> Return (VStr "")) (fun name =>
  obind (getProp r "email" <|> getProp r "Email" <|> Return (VStr "")) (fun email =>
  obind (getProp r "attending" <|> getProp r "Attending"
         <|> Return (VStr "")) (fun attending =>
  obind (getProp r "guests" <|> getProp r "Guests"
         <|> Return (VNum zero)) (fun guests =>
  obind (getProp r "message" <|> getProp r "Message"
         <|> Return (VStr "")) (fun message =>
  obind (getProp r "timestamp" <|> getProp r "Timestamp" <|> getProp r "time"
         <|> getProp r "Time" <|> Return (VStr "")) (fun timestamp =>
  Return [ ("name", name);
           ("email", email);
           ("attending", attending);
           ("guests", VNum (ToNumber guests));
           ("message", message);
           ("timestamp", timestamp) ])))))).

(** [(x) => x.name || x.email], the predicate of [norm.filter]. *)
Definition keepRow (x : object) : bool :=
  ToBoolean (if ToBoolean (lookup "name" x) then lookup "name" x
             else lookup "email" x).

(** [rows.map(f)]: only an array has [map]; calling it on anything else
    that [fetchRSVPsFromSheets] can return is a TypeError. *)
Definition array_map {B} (f : value -> outcome B) (rows : value) : outcome (list B) :=
  match rows with
  | VArr elems => mapM f elems
  | _ => Throw "TypeError"
  end.

(** *** Requests and the world around the gateway *)

Record request := {
  req_method : string;
  req_url : string;
  req_headers : list (string * string);
  req_body : option string
}.

(** What [fetch] resolves to: the status line and the body as
    [res.json()] would parse it ([None] when it is not JSON). *)
Record response := {
  res_status : Z;
  res_json : option value
}.

Definition res_ok (r : response) : bool :=
  ((200 <=? res_status r) && (res_status r <=? 299))%Z.

(** The state the gateway reads and writes: the requests issued so far,
    the number of clock readings, and the two pieces of component state
    that [refreshRSVPs] sets. *)
Record world := {
  net_log : list request;
  clock_reads : nat;
  rsvps : list object;
  loading : bool
}.

Definition initial_world : world :=
  {| net_log := []; clock_reads := 0; rsvps := []; loading := false |}.

Definition M (A : Type) : Type := world -> outcome A * world.

Definition ret {A} (a : A) : M A := fun w => (Return a, w).

Definition throw {A} (err : string) : M A := fun w => (Throw err, w).

Definition bind {A B} (m : M A) (f : A -> M B) : M B :=
  fun w =>
    match m w with
    | (Return a, w') => f a w'
    | (Throw e, w') => (Throw e, w')
    end.

Definition lift {A} (o : outcome A) : M A := fun w => (o, w).

(** [try { m } catch (e) { h e }] *)
Definition try_catch {A} (m : M A) (h : string -> M A) : M A :=
  fun w =>
    match m w with
    | (Return a, w') => (Return a, w')
    | (Throw e, w') => h e w'
    end.

(** [try { m } finally { f }] for an [f] that does not throw. *)
Definition try_finally {A} (m : M A) (f : M unit) : M A :=
  fun w => let '(r, w') := m w in (r, snd (f w')).

Notation "x <- m ;; k" := (bind m (fun x => k))
  (at level 61, m at next level, right associativity) : js_scope.
Notation "m ;;; k" := (bind m (fun _ => k))
  (at level 61, right associativity) : js_scope.

Definition setRsvps (l : list object) : M unit :=
  fun w => (Return tt, {| net_log := net_log w; clock_reads := clock_reads w;
                          rsvps := l; loading := loading w |}).

Definition setLoading (b : bool) : M unit :=
  fun w => (Return tt, {| net_log := net_log w; clock_reads := clock_reads w;
                          rsvps := rsvps w; loading := b |}).

(** application/x-www-form-urlencoded serialisation
    ([URLSearchParams.prototype.toString]). *)
Definition urlencode_byte (c : ascii) : string :=
  let n := nat_of_ascii c in
  if ((48 <=? n) && (n <=? 57) || (65 <=? n) && (n <=? 90)
      || (97 <=? n) && (n <=? 122)
      || (n =? 42) || (n =? 45) || (n =? 46) || (n =? 95))%nat
  then Str.one c
  else if (n =? 32)%nat then "+"
  else "%" ++ hex2 true c.

Fixpoint urlencode (s : string) : string :=
  match s with
  | EmptyString => ""
  | String c r => urlencode_byte c ++ urlencode r
  end.

Definition URLSearchParams_toString (params : list (string * string)) : string :=
  Str.join "&" (map (fun kv => urlencode (fst kv) ++ "=" ++ urlencode (snd kv)) params).

Section Deployment.

(** [import.meta.env?.VITE_SHEETS_WEB_APP_URL]: a string, or [undefined]
    ([None]) when the variable is not set. *)
Variable SHEETS_WEB_APP_URL : option string.

(** The remote end: what a request is answered with, given the requests
    already made; [None] when [fetch] rejects (DNS, connection, ...). *)
Variable remote : list request -> request -> option response.

(** [new Date().toISOString()] at the n-th reading of the clock. *)
Variable now : nat -> string.

Definition isSheetsConfigured : bool :=
  match SHEETS_WEB_APP_URL with
  | Some u => Str.startsWith "http" u
  | None => false
  end.

Definition fetch (req : request) : M response :=
  fun w =>
    let w' := {| net_log := net_log w ++ [req]; clock_reads := clock_reads w;
                 rsvps := rsvps w; loading := loading w |} in
    match remote (net_log w) req with
    | Some res => (Return res, w')
    | None => (Throw "TypeError: Failed to fetch", w')
    end.

Definition json (res : response) : M value :=
  match res_json res with
  | Some v => ret v
  | None => throw "SyntaxError"
  end.

Definition Date_toISOString : M string :=
  fun w => (Return (now (clock_reads w)),
            {| net_log := net_log w; clock_reads := S (clock_reads w);
               rsvps := rsvps w; loading := loading w |}).

(** The URL as a template literal prints it. *)
Definition url_text : string :=
  match SHEETS_WEB_APP_URL with
  | Some u => u
  | None => "undefined"
  end.

Definition GET (url : string) : request :=
  {| req_method := "GET"; req_url := url; req_headers := []; req_body := None |}.

(** [fetchRSVPsFromSheets()] *)
Definition fetchRSVPsFromSheets : M value :=
  if negb isSheetsConfigured then throw "SHEETS_URL_NOT_CONFIGURED"
  else
    let url := if Str.has_char "?" url_text
               then url_text ++ "&action=list"
               else url_text ++ "?action=list" in
    res <- fetch (GET url) ;;
    if negb (res_ok res)
    then throw ("LIST_FAILED_" ++ Num.toString (Num.of_Z (res_status res)))
    else
      data <- json res ;;
      match data with
      | VArr _ => ret data
      | _ =>
          lift ((if is_nullish data then Return VUndef else getProp data "rows")
                <|> Return (VArr []))
      end.

(** The record handed to [new URLSearchParams] in the GET revision of
    [addRSVPToSheets]; its properties are evaluated in order, and the
    constructor turns each value into a string. *)
Definition add_params (entry : value) : M (list (string * string)) :=
  name <- lift (getProp entry "name" <|> Return (VStr "")) ;;
  email <- lift (getProp entry "email" <|> Return (VStr "")) ;;
  attending <- lift (getProp entry "attending" <|> Return (VStr "")) ;;
  g <- lift (getProp entry "guests") ;;
  let guests := if ToBoolean g then ToString g else "0" in
  message <- lift (getProp entry "message" <|> Return (VStr "")) ;;
  timestamp <- Date_toISOString ;;
  ret [ ("action", "add");
        ("name", ToString name);
        ("email", ToString email);
        ("attending", ToString attending);
        ("guests", guests);
        ("message", ToString message);
        ("timestamp", timestamp) ].

(** [addRSVPToSheets(entry)], the GET revision (first half of
    [src/App.jsx], [src/pages/home/index.jsx]). *)
Definition addRSVPToSheets (entry : value) : M value :=
  if match SHEETS_WEB_APP_URL with
     | Some u => String.eqb u ""
     | None => true
     end
  then throw "SHEETS_URL_NOT_CONFIGURED"
  else
    params <- add_params entry ;;
    let url := url_text ++ "?" ++ URLSearchParams_toString params in
    try_catch
      (res <- fetch (GET url) ;;
       if negb (res_ok res)
       then throw ("ADD_FAILED_" ++ Num.toString (Num.of_Z (res_status res)))
       else json res)
      (fun err => throw err).

(** [addRSVPToSheets(entry)], the POST revision (second half of
    [src/App.jsx]). *)
Definition addRSVPToSheets_POST (entry : value) : M value :=
  if negb isSheetsConfigured then throw "SHEETS_URL_NOT_CONFIGURED"
  else
    let body := JSON_stringify (VObj [("action", VStr "add"); ("entry", entry)]) in
    res <- fetch {| req_method := "POST"; req_url := url_text;
                    req_headers := [("Content-Type", "application/json")];
                    req_body := body |} ;;
    if negb (res_ok res)
    then throw ("ADD_FAILED_" ++ Num.toString (Num.of_Z (res_status res)))
    else json res.

(** [refreshRSVPs()] of the root component, for the current [isAdmin]. *)
Definition refreshRSVPs (isAdmin : bool) : M unit :=
  if negb isAdmin then ret tt
  else
    setLoading true ;;;
    try_finally
      (try_catch
         (rows <- fetchRSVPsFromSheets ;;
          norm <- lift (array_map normalizeRow rows) ;;
          setRsvps (filter keepRow norm))
         (fun _ => setRsvps []))
      (setLoading false).

(** The rows that [refreshRSVPs] receives from [fetchRSVPsFromSheets]. *)
Definition fetched (w : world) : outcome value :=
  fst (fetchRSVPsFromSheets (snd (setLoading true w))).

End Deployment.

End Gateway.

(** ** Reference notions used to state the claims *)
Module Reference.

Import JS.

(** *** A CSV decoder

    RFC 4180 as parsers implement it: fields are separated by commas and
    records by a line break (LF, CR LF or CR) outside quotes; a field that
    starts with a double quote runs to the closing quote, a doubled quote
    inside it standing for one quote; a line break at the very end of the
    text terminates the last record and starts no new one. *)
Inductive pstate : Type :=
| RecordStart   (* nothing of the record read yet *)
| AfterCR       (* as [RecordStart], right after a CR *)
| FieldStart    (* right after a comma *)
| Unquoted      (* inside a field without quotes *)
| Quoted        (* inside a quoted field *)
| QuoteSeen.    (* after a quote inside a quoted field *)

Definition at_start (st : pstate) : bool :=
  match st with
  | RecordStart | AfterCR | FieldStart => true
  | _ => false
  end.

Definition snoc_char (s : string) (c : ascii) : string := s ++ Str.one c.

(** [cur] holds the characters of the field being read, [row] the
    completed fields of the record being read. *)
Fixpoint decode (st : pstate) (cur : string) (row : list string) (s : string)
    : list (list string) :=
  match s with
  | EmptyString =>
      match st with
      | RecordStart | AfterCR => []
      | _ => [(row ++ [cur])%list]
      end
  | String c r =>
      match st with
      | Quoted =>
          if Ascii.eqb c Str.DQUOTE then decode QuoteSeen cur row r
          else decode Quoted (snoc_char cur c) row r
      | _ =>
          if Ascii.eqb c Str.DQUOTE then
            match st with
            | QuoteSeen => decode Quoted (snoc_char cur c) row r
            | Unquoted => decode Unquoted (snoc_char cur c) row r
            | _ => decode Quoted "" row r
            end
          else if Ascii.eqb c Str.COMMA then
            decode FieldStart "" (row ++ [cur])%list r
          else if Ascii.eqb c Str.LF then
            match st with
            | AfterCR => decode RecordStart "" [] r
            | _ => (row ++ [cur])%list :: decode RecordStart "" [] r
            end
          else if Ascii.eqb c Str.CR then
            (row ++ [cur])%list :: decode AfterCR "" [] r
          else decode Unquoted (snoc_char cur c) row r
      end
  end.

Definition parseCSV (s : string) : list (list string) :=
  decode RecordStart "" [] s.

(** The text a cell stands for: what [processRow] stringifies. *)
Definition cell_text (v : value) : string :=
  if is_nullish v then "" else ToString v.

(** Internal double quotes doubled, as the specification words it:
    every double quote of the text is written twice, every other
    character once. *)
Definition doubled (text : string) : string :=
  string_of_list_ascii
    (flat_map (fun c => if Ascii.eqb c Str.DQUOTE then [Str.DQUOTE; Str.DQUOTE] else [c])
       (list_ascii_of_string text)).

(** A quoted field as the specification words it: the text between two
    double quotes, its own double quotes doubled. *)
Definition quoted (text : string) : string :=
  Str.one Str.DQUOTE ++ doubled text ++ Str.one Str.DQUOTE.

(** How a reader takes the inside of a quoted field: two double quotes
    in a row stand for one; a double quote on its own is not allowed. *)
Fixpoint undouble (body : string) : option string :=
  match body with
  | EmptyString => Some ""
  | String c r =>
      if Ascii.eqb c Str.DQUOTE then
        match r with
        | String d r' =>
            if Ascii.eqb d Str.DQUOTE
            then match undouble r' with
                 | Some t => Some (String Str.DQUOTE t)
                 | None => None
                 end
            else None
        | EmptyString => None
        end
      else match undouble r with
           | Some t => Some (String c t)
           | None => None
           end
  end.

(** A flat string-valued row. *)
Definition string_valued (row : object) : Prop :=
  forall v, In v (values row) -> exists s, v = VStr s.

(** Characters that have a meaning in CSV. *)
Definition plain (s : string) : bool :=
  negb (Str.has_char Str.DQUOTE s || Str.has_char Str.COMMA s
        || Str.has_char Str.LF s || Str.has_char Str.CR s).

(** A carriage return only occurs in text that [processRow] quotes. *)
Definition cr_guarded (s : string) : bool :=
  negb (Str.has_char Str.CR s) || Gateway.needsQuotes s.

(** A line of the output: the cells of one record. *)
Definition csv_line (cells : list value) : string :=
  Str.join "," (map Gateway.csvCell cells).

(** The state in which the decoder meets a cell: at the start of a record
    or right after a comma. *)
Definition fresh (st : pstate) : Prop := st = RecordStart \/ st = FieldStart.

Definition guarded_cells (vs : list value) : Prop :=
  Forall (fun v => cr_guarded (cell_text v) = true) vs.

(** The data records of a decoded text: all but the header. *)
Definition decodeRows (s : string) : list (list string) := tl (parseCSV s).

(** *** Case-insensitive lookup, as the specification words it *)

Definition lower (c : ascii) : ascii :=
  let n := nat_of_ascii c in
  if ((65 <=? n) && (n <=? 90))%nat then ascii_of_nat (n + 32) else c.

Fixpoint lowercase (s : string) : string :=
  match s with
  | EmptyString => ""
  | String c r => String (lower c) (lowercase r)
  end.

(** The value under the first key of [o] that equals [k] up to case. *)
Fixpoint lookup_ci (k : string) (o : object) : value :=
  match o with
  | [] => VUndef
  | (k', v) :: rest =>
      if String.eqb (lowercase k) (lowercase k') then v else lookup_ci k rest
  end.

(** First truthy value along a chain of readings, else the default. *)
Fixpoint first_truthy (candidates : list value) (dflt : value) : value :=
  match candidates with
  | [] => dflt
  | v :: rest => if ToBoolean v then v else first_truthy rest dflt
  end.

(** Normalisation with every key of the chains matched up to case. *)
Definition normalize_ci (r : object) : object :=
  let pick chain dflt := first_truthy (map (fun k => lookup_ci k r) chain) dflt in
  [ ("name", pick ["name"; "Name"; "full_name"] (VStr ""));
    ("email", pick ["email"; "Email"] (VStr ""));
    ("attending", pick ["attending"; "Attending"] (VStr ""));
    ("guests", VNum (ToNumber (pick ["guests"; "Guests"] (VNum zero))));
    ("message", pick ["message"; "Message"] (VStr ""));
    ("timestamp", pick ["timestamp"; "Timestamp"; "time"; "Time"] (VStr "")) ].

(** Normalisation with the keys of the chains matched exactly. *)
Definition normalize_exact (r : object) : object :=
  let pick chain dflt := first_truthy (map (fun k => lookup k r) chain) dflt in
  [ ("name", pick ["name"; "Name"; "full_name"] (VStr ""));
    ("email", pick ["email"; "Email"] (VStr ""));
    ("attending", pick ["attending"; "Attending"] (VStr ""));
    ("guests", VNum (ToNumber (pick ["guests"; "Guests"] (VNum zero))));
    ("message", pick ["message"; "Message"] (VStr ""));
    ("timestamp", pick ["timestamp"; "Timestamp"; "time"; "Time"] (VStr "")) ].

(** The canonical keys, in the order of the store's columns. *)
Definition canonical_keys : list string :=
  ["name"; "email"; "attending"; "guests"; "message"; "timestamp"].

(** The five canonical fields that hold text. *)
Definition text_keys : list string :=
  ["name"; "email"; "attending"; "message"; "timestamp"].

(** Every property name that the normalisation reads. *)
Definition chain_keys : list string :=
  ["name"; "Name"; "full_name"; "email"; "Email"; "attending"; "Attending";
   "guests"; "Guests"; "message"; "Message";
   "timestamp"; "Timestamp"; "time"; "Time"].

(** The own properties of a row as the normalisation sees them: those of
    a plain object, none for an array or a primitive. *)
Definition own_props (v : value) : object :=
  match v with
  | VObj props => props
  | _ => []
  end.

(** A guest count: any number for which [n || 0] is [n] itself, that is,
    any number but [NaN] and the negative zero. *)
Definition count_like (n : Num.number) : Prop :=
  Num.truthy n = true \/ n = zero.

(** An already-canonical row, as the specification words it: exactly the
    six lowercase keys (in any order), strings under five of them and a
    number under [guests]. *)
Definition canonical_row (r : object) : Prop :=
  NoDup (keys r) /\ (forall k, In k (keys r) <-> In k canonical_keys) /\
  (forall k, In k text_keys -> exists s, lookup k r = VStr s) /\
  (exists n, lookup "guests" r = VNum n).

(** A row whose properties are all strings (or null). *)
Definition text_row (r : object) : Prop :=
  forall k, is_nullish (lookup k r) = true \/ exists s, lookup k r = VStr s.

(** *** Sample deployments *)

Import Gateway.

(** The remote of the specification's listing scenario, with a blank row
    added. *)
Definition sample_remote (_ : list request) (_ : request) : option response :=
  Some {| res_status := 200;
          res_json := Some (VArr [ VObj [("Name", VStr "Bo");
                                         ("Timestamp", VStr "2025-01-01T00:00:00Z")];
                                   VObj [("name", VStr ""); ("guests", VNum zero)] ]) |}.

(** A remote that acknowledges every request. *)
Definition ack_remote (_ : list request) (_ : request) : option response :=
  Some {| res_status := 200; res_json := Some (VObj [("ok", VBool true)]) |}.

(** A clock stopped at the first instant of 2025. *)
Definition fixed_clock (_ : nat) : string := "2025-01-01T00:00:00.000Z".

(** The entry of the specification's submission scenario, as the form
    hands it over: with a timestamp of its own. *)
Definition sample_entry : value :=
  VObj [("name", VStr "Ana"); ("email", VStr "a@x.com"); ("attending", VStr "Yes");
        ("guests", VNum two); ("message", VStr "");
        ("timestamp", VStr "2024-12-31T23:59:59.000Z")].

(** Two rows with a comma, quotes and line breaks in their cells. *)
Definition sample_rows : list object :=
  [ [("name", VStr "Ana, B.");
     ("message", VStr ("said " ++ Str.one Str.DQUOTE ++ "hi" ++ Str.one Str.DQUOTE
                       ++ Str.one Str.CR ++ Str.one Str.LF ++ "bye"))];
    [("name", VStr "Bo"); ("message", VStr "")] ].

(** The fields of an entry that the GET revision of [addRSVPToSheets]
    reads. *)
Definition entry_keys : list string :=
  ["name"; "email"; "attending"; "guests"; "message"].

End Reference.

(** ** Sizes and page indices ([src/App.jsx], [src/pages/home/index.jsx])

    The two index helpers take numbers and compute on them as the
    language does, in binary64.  Pixel widths are integers read from the
    DOM; the operators applied to them (comparisons, [-], [Math.min],
    [Math.max]) are exact on integers of that size. *)
Module Layout.

(** [n % d] on numbers (Number::remainder): [NaN] when [n] is infinite
    or [d] is zero, [n] itself when [d] is infinite or [n] is zero, and
    otherwise [n - d * q] for the integer [q] that is [n / d] rounded
    towards zero, computed exactly; a zero result takes the sign of
    [n]. *)
Definition Number_remainder (n d : float) : float :=
  match Prim2SF n, Prim2SF d with
  | S754_nan, _ | _, S754_nan => nan
  | S754_infinity _, _ => nan
  | _, S754_zero _ => nan
  | _, S754_infinity _ => n
  | S754_zero _, _ => n
  | S754_finite sn mn en, S754_finite _ md ed =>
      let e := Z.min en ed in
      let r := Z.rem (Zpos mn * 2 ^ (en - e)) (Zpos md * 2 ^ (ed - e)) in
      if (r =? 0)%Z then (if sn then neg_zero else zero)
      else SF2Prim (binary_normalize prec emax (cond_Zopp sn r) e false)
  end.

Definition computeNextIndex (total current : float) : float :=
  if (total <=? zero)%float then zero
  else Number_remainder (current + one)%float total.

Definition computePrevIndex (total current : float) : float :=
  if (total <=? zero)%float then zero
  else Number_remainder (current - one + total)%float total.

Definition BASE_W : Z := 900.
Definition BASE_H : Z := 620.
Definition MIN_W : Z := 320.
Definition MAX_W : Z := 1200.

(** [BASE_H / BASE_W], a binary64 division. *)
Definition ASPECT : float := (Num.of_Z BASE_H / Num.of_Z BASE_W)%float.

(** [Math.round]: the nearest integer, a tie going up; a result of zero
    keeps the sign of the argument. *)
Definition Math_round (x : float) : float :=
  match Prim2SF x with
  | S754_finite s m e =>
      if (0 <=? e)%Z then x
      else
        let k := (- e)%Z in
        let n := ((2 * cond_Zopp s (Zpos m) + 2 ^ k) / 2 ^ (k + 1))%Z in
        if (n =? 0)%Z then (if s then neg_zero else zero) else Num.of_Z n
  | _ => x
  end.

(** [measure] in the resize effect of [App]: [clientWidth] is [None] when
    the container element is missing. *)
Definition measure (clientWidth : option Z) : Z * float :=
  let w := match clientWidth with
           | Some c => if (c =? 0)%Z then BASE_W else c
           | None => BASE_W
           end in
  let cw := Z.max MIN_W (Z.min MAX_W w) in
  let ch := Math_round (Num.of_Z cw * ASPECT)%float in
  (cw, ch).

(** [getBookDimensions] of the home page: [innerWidth] is [None] when
    there is no [window]. *)
Definition getBookDimensions (innerWidth : option Z) : Z * Z :=
  match innerWidth with
  | None => (900, 620)%Z
  | Some screenWidth =>
      if (screenWidth <? 640)%Z then (Z.min 350 (screenWidth - 40), 620)%Z
      else if (screenWidth <? 768)%Z then (600, 650)%Z
      else if (screenWidth <? 1024)%Z then (700, 650)%Z
      else (900, 620)%Z
  end.

(** The height [Math.round] is expected to give: [width * 620 / 900]
    rounded to the nearest integer, a tie going up. *)
Definition aspect_height (w : Z) : Z := ((BASE_H * 2 * w + BASE_W) / (2 * BASE_W))%Z.

(** The widths [measure] can produce. *)
Definition widths : list Z := map (fun i => (MIN_W + Z.of_nat i)%Z) (seq 0 881).

End Layout.

(** ** Query strings

    The application/x-www-form-urlencoded parser behind
    [new URLSearchParams(text)], on UTF-8 bytes: split on ampersands,
    split each piece at its first equals sign, turn plus signs into
    spaces, undo the percent escapes, and decode the bytes as UTF-8,
    any ill-formed sequence becoming U+FFFD. *)
Module Url.

Import Str.

Definition AMP : ascii := Eval cbv in chr 38.
Definition EQUALS : ascii := Eval cbv in chr 61.
Definition PLUS : ascii := Eval cbv in chr 43.
Definition PERCENT : ascii := Eval cbv in chr 37.
Definition SPACE : ascii := Eval cbv in chr 32.
Definition QUESTION : ascii := Eval cbv in chr 63.
Definition HASH : ascii := Eval cbv in chr 35.

(** Strict splitting on a separator: one piece more than separators. *)
Fixpoint split (sep : ascii) (s : string) : list string :=
  match s with
  | EmptyString => [""]
  | String c r =>
      if Ascii.eqb c sep then "" :: split sep r
      else match split sep r with
           | p :: ps => String c p :: ps
           | [] => [one c]
           end
  end.

(** The text before the first [sep], and the text after it if there is
    one. *)
Fixpoint cut (sep : ascii) (s : string) : string * option string :=
  match s with
  | EmptyString => ("", None)
  | String c r =>
      if Ascii.eqb c sep then ("", Some r)
      else let '(a, b) := cut sep r in (String c a, b)
  end.

Fixpoint plus_to_space (s : string) : string :=
  match s with
  | EmptyString => ""
  | String c r => String (if Ascii.eqb c PLUS then SPACE else c) (plus_to_space r)
  end.

Definition hex_val (c : ascii) : option nat :=
  match Num.digit_val 16 c with
  | Some v => Some (Z.to_nat v)
  | None => None
  end.

(** Percent-decoding: a percent sign followed by two hexadecimal digits
    is the byte they write; any other percent sign stands for itself. *)
Fixpoint percent_decode (s : string) : string :=
  match s with
  | EmptyString => ""
  | String c t =>
      if Ascii.eqb c PERCENT then
        match t with
        | String a (String b r) =>
            match hex_val a, hex_val b with
            | Some x, Some y => String (ascii_of_nat (16 * x + y)) (percent_decode r)
            | _, _ => String c (percent_decode t)
            end
        | _ => String c (percent_decode t)
        end
      else String c (percent_decode t)
  end.

(** U+FFFD in UTF-8. *)
Definition REPLACEMENT : string :=
  String (chr 239) (String (chr 191) (String (chr 189) "")).

(** The UTF-8 decoder of the Encoding standard, writing UTF-8 again:
    [needed] continuation bytes are awaited, the next one within
    [lower..upper]; [pending] holds the bytes of the sequence so far.  A
    byte that cannot continue a sequence ends it with U+FFFD and is
    looked at afresh. *)
Fixpoint utf8_decode_from (needed lower upper : nat) (pending : string)
    (s : string) : string :=
  match s with
  | EmptyString => if (needed =? 0)%nat then "" else REPLACEMENT
  | String c r =>
      let b := nat_of_ascii c in
      let start :=
        if (b <=? 127)%nat then String c (utf8_decode_from 0 128 191 "" r)
        else if ((194 <=? b) && (b <=? 223))%nat then
          utf8_decode_from 1 128 191 (one c) r
        else if ((224 <=? b) && (b <=? 239))%nat then
          utf8_decode_from 2 (if (b =? 224)%nat then 160 else 128)
            (if (b =? 237)%nat then 159 else 191) (one c) r
        else if ((240 <=? b) && (b <=? 244))%nat then
          utf8_decode_from 3 (if (b =? 240)%nat then 144 else 128)
            (if (b =? 244)%nat then 143 else 191) (one c) r
        else REPLACEMENT ++ utf8_decode_from 0 128 191 "" r in
      if (needed =? 0)%nat then start
      else if ((lower <=? b) && (b <=? upper))%nat then
        if (needed =? 1)%nat
        then pending ++ String c (utf8_decode_from 0 128 191 "" r)
        else utf8_decode_from (needed - 1) 128 191 (pending ++ one c) r
      else REPLACEMENT ++ start
  end.

Definition utf8_decode (s : string) : string := utf8_decode_from 0 128 191 "" s.

Definition decode_component (s : string) : string :=
  utf8_decode (percent_decode (plus_to_space s)).

(** The urlencoded parser: empty pieces are skipped; a piece without an
    equals sign is a name with an empty value. *)
Definition parse_pair (piece : string) : string * string :=
  let '(name, value) := cut EQUALS piece in
  (decode_component name,
   decode_component (match value with Some v => v | None => "" end)).

Fixpoint parse_pieces (pieces : list string) : list (string * string) :=
  match pieces with
  | [] => []
  | piece :: rest =>
      match piece with
      | EmptyString => parse_pieces rest
      | _ => parse_pair piece :: parse_pieces rest
      end
  end.

Definition parse_urlencoded (s : string) : list (string * string) :=
  parse_pieces (split AMP s).

(** [new URLSearchParams(init)] for a string: one leading question mark
    is dropped. *)
Definition URLSearchParams_parse (init : string) : list (string * string) :=
  parse_urlencoded
    (match init with
     | String c r => if Ascii.eqb c QUESTION then r else init
     | EmptyString => init
     end).

(** [params.get(name)]: the value of the first pair with that name, or
    [null]. *)
Fixpoint URLSearchParams_get (name : string) (params : list (string * string))
    : option string :=
  match params with
  | [] => None
  | (k, v) :: rest => if String.eqb k name then Some v else URLSearchParams_get name rest
  end.

(** The query of a URL as its reader takes it: what follows the first
    question mark, up to the first number sign, where the fragment
    starts; [None] when there is no question mark before it. *)
Definition query_of (url : string) : option string :=
  snd (cut QUESTION (fst (cut HASH url))).

(** Well-formed text: what the UTF-8 decoder leaves as it is. *)
Definition well_formed (s : string) : Prop := utf8_decode s = s.

End Url.

(** ** The URLs that the gateway calls *)
Module Calls.

Import Gateway.

(** The URL that [fetchRSVPsFromSheets] fetches. *)
Definition list_url (url : option string) : string :=
  if Str.has_char "?" (url_text url)
  then url_text url ++ "&action=list" else url_text url ++ "?action=list".

End Calls.

(** ** Admin gating ([src/App.jsx], [src/pages/home/index.jsx]) *)
Module Admin.

Import JS.

(** What the admin code touches: the [is_admin] item of the session
    storage, the [isAdmin] and [showAdminDialog] state of the page, and
    the [code] and [error] state of the login dialog. *)
Record session := {
  stored : option string;
  isAdmin : bool;
  showAdminDialog : bool;
  code : string;
  error : string
}.

Section Config.

(** [import.meta.env?.VITE_ADMIN_CODE], [None] when it is not set. *)
Variable VITE_ADMIN_CODE : option string.

(** [import.meta.env?.VITE_ADMIN_CODE || ""] *)
Definition ADMIN_CODE : string :=
  match VITE_ADMIN_CODE with
  | Some c => c
  | None => ""
  end.

(** [detectAdminFromURL()]: [search] is [window.location.search], [None]
    when there is no [window]. *)
Definition detectAdminFromURL (search : option string) : bool :=
  match search with
  | None => false
  | Some text =>
      match Url.URLSearchParams_get "admin" (Url.URLSearchParams_parse text) with
      | None => false
      | Some token =>
          if String.eqb token "" then false
          else if negb (String.eqb ADMIN_CODE "") then String.eqb token ADMIN_CODE
          else String.eqb token "1"
      end
  end.

(** The mount effect of the page: grant from the URL and remember it, or
    else take what the session storage remembers. *)
Definition onMount (search : option string) (s : session) : session :=
  match search with
  | None => s
  | Some _ =>
      if detectAdminFromURL search
      then {| stored := Some "true"; isAdmin := true;
              showAdminDialog := showAdminDialog s; code := code s; error := error s |}
      else {| stored := stored s;
              isAdmin := match stored s with
                         | Some v => String.eqb v "true"
                         | None => false
                         end;
              showAdminDialog := showAdminDialog s; code := code s; error := error s |}
  end.

Definition confirmAdminLogin (s : session) : session :=
  {| stored := Some "true"; isAdmin := true; showAdminDialog := false;
     code := code s; error := error s |}.

Definition logoutAdmin (s : session) : session :=
  {| stored := None; isAdmin := false; showAdminDialog := showAdminDialog s;
     code := code s; error := error s |}.

(** [ADMIN_CODE || "1"], the [expected] of the login dialog. *)
Definition expected_code : string :=
  if negb (String.eqb ADMIN_CODE "") then ADMIN_CODE else "1".

(** [submit] of [AdminLoginDialog], with [confirmAdminLogin] as its
    [onSuccess]. *)
Definition submitLogin (s : session) : session :=
  let expected := expected_code in
  if String.eqb (code s) expected then confirmAdminLogin s
  else {| stored := stored s; isAdmin := isAdmin s;
          showAdminDialog := showAdminDialog s; code := code s;
          error := "Incorrect code. Please try again." |}.

(** The effect of the login dialog on [open]: closing it clears what was
    typed and the error. *)
Definition onDialogOpenChange (s : session) : session :=
  if showAdminDialog s then s
  else {| stored := stored s; isAdmin := isAdmin s;
          showAdminDialog := false; code := ""; error := "" |}.

End Config.

(** The effect of the page on [isAdmin]: an admin gets the list
    refreshed, anybody else gets it emptied. *)
Definition onIsAdminChange (url : option string)
    (remote : list Gateway.request -> Gateway.request -> option Gateway.response)
    (isAdmin : bool) : Gateway.M unit :=
  if isAdmin then Gateway.refreshRSVPs url remote true else Gateway.setRsvps [].

(** The session storage and the [isAdmin] state agree. *)
Definition in_step (s : session) : Prop :=
  isAdmin s = match stored s with
              | Some v => String.eqb v "true"
              | None => false
              end.

End Admin.

(** ** The RSVP dialog and the submission handler
    ([src/pages/home/index.jsx]) *)
Module Home.

Import JS Gateway.

(** [{ ...o, [k]: v }] for a field name [k] (not an array index): the
    property keeps its place if [o] has it and is added last if not. *)
Fixpoint set_prop (k : string) (v : value) (o : object) : object :=
  match o with
  | [] => [(k, v)]
  | (k', v') :: rest =>
      if String.eqb k' k then (k, v) :: rest else (k', v') :: set_prop k v rest
  end.

(** The initial state of the form of [RSVPDialog]. *)
Definition empty_form : object :=
  [("name", VStr ""); ("email", VStr ""); ("attending", VStr "");
   ("guests", VStr ""); ("message", VStr "")].

(** The global [replace] of the guests input: every character that is
    not a decimal digit is dropped. *)
Fixpoint digits_only (s : string) : string :=
  match s with
  | EmptyString => ""
  | String c r => if Num.is_digit c then String c (digits_only r) else digits_only r
  end.

(** The state of the page that the handlers read and write. *)
Record page := {
  gw : world;
  saveState : string;
  alerts : list string;
  form : object;
  showRSVPDialog : bool
}.

Definition P (A : Type) : Type := page -> outcome A * page.

Definition pret {A} (a : A) : P A := fun p => (Return a, p).

Definition pbind {A B} (m : P A) (f : A -> P B) : P B :=
  fun p =>
    match m p with
    | (Return a, p') => f a p'
    | (Throw e, p') => (Throw e, p')
    end.

(** A gateway call, run on the gateway's part of the page. *)
Definition plift {A} (m : M A) : P A :=
  fun p =>
    let '(r, w) := m (gw p) in
    (r, {| gw := w; saveState := saveState p; alerts := alerts p;
           form := form p; showRSVPDialog := showRSVPDialog p |}).

Definition ptry_catch {A} (m : P A) (h : string -> P A) : P A :=
  fun p =>
    match m p with
    | (Return a, p') => (Return a, p')
    | (Throw e, p') => h e p'
    end.

Definition setSaveState (s : string) : P unit :=
  fun p => (Return tt, {| gw := gw p; saveState := s; alerts := alerts p;
                          form := form p; showRSVPDialog := showRSVPDialog p |}).

Definition setForm (f : object) : P unit :=
  fun p => (Return tt, {| gw := gw p; saveState := saveState p; alerts := alerts p;
                          form := f; showRSVPDialog := showRSVPDialog p |}).

Definition setShowRSVPDialog (b : bool) : P unit :=
  fun p => (Return tt, {| gw := gw p; saveState := saveState p; alerts := alerts p;
                          form := form p; showRSVPDialog := b |}).

Definition alert (msg : string) : P unit :=
  fun p => (Return tt, {| gw := gw p; saveState := saveState p;
                          alerts := (alerts p ++ [msg])%list;
                          form := form p; showRSVPDialog := showRSVPDialog p |}).

Declare Scope page_scope.
Delimit Scope page_scope with page.
Notation "x <- m ;; k" := (pbind m (fun x => k))
  (at level 61, m at next level, right associativity) : page_scope.
Notation "m ;;; k" := (pbind m (fun _ => k))
  (at level 61, right associativity) : page_scope.
Local Open Scope page_scope.

(** [update(k, v)] of the dialog. *)
Definition update (k : string) (v : value) : P unit :=
  fun p => setForm (set_prop k v (form p)) p.

(** The [onChange] of the guests input, for the text [typed]. *)
Definition guestsChange (typed : string) : P unit :=
  update "guests" (VNum (ToNumber (VStr (digits_only typed)))).

Definition SORRY : string :=
  "Sorry, we couldn't save your RSVP. Please check back later.".

Definition PLEASE : string := "Please enter your name and email.".

Section Deployment.

Variable url : option string.
Variable remote : list request -> request -> option response.
Variable now : nat -> string.

(** [handleRSVPSubmit(entry)] of [Home], for the current [isAdmin]. *)
Definition handleRSVPSubmit (isAdmin : bool) (entry : value) : P unit :=
  ptry_catch
    (setSaveState "saving" ;;;
     _ <- plift (addRSVPToSheets url remote now entry) ;;
     setSaveState "success" ;;;
     if isAdmin then plift (refreshRSVPs url remote isAdmin) else pret tt)
    (fun _ => setSaveState "error" ;;; alert SORRY).

(** [handleSubmit] of [RSVPDialog], with [handleRSVPSubmit] as its
    [onSubmit]. *)
Definition handleSubmit (isAdmin : bool) : P unit :=
  fun p =>
    (valid <- (fun q => (validateRSVP (VObj (form p)), q)) ;;
     if negb valid then alert PLEASE
     else
       stamp <- plift (Date_toISOString now) ;;
       handleRSVPSubmit isAdmin (VObj (set_prop "timestamp" (VStr stamp) (form p)))) p.

(** [handleClose] of [RSVPDialog], with [handleCloseRSVP] as its
    [onClose]. *)
Definition handleClose : P unit :=
  setForm empty_form ;;; setShowRSVPDialog false ;;; setSaveState "idle".

End Deployment.

End Home.

(** ** Exports ([src/App.jsx], [src/pages/home/index.jsx]) *)
Module Exports.

Import JS Gateway.

(** A file handed to the browser for download. *)
Record download := {
  file_name : string;
  mime : string;
  content : string
}.

(** [downloadCSV(filename, rows)]: the blob that the temporary link
    points to. *)
Definition downloadCSV (filename : string) (rows : list object) : download :=
  {| file_name := filename; mime := "text/csv;charset=utf-8;";
     content := rowsToCSV rows |}.

(** [exportCSV] for the current list, adding to the files downloaded. *)
Definition exportCSV (rsvps : list object) (files : list download) : list download :=
  match rsvps with
  | [] => files
  | _ => (files ++ [downloadCSV "wedding-rsvps.csv" rsvps])%list
  end.

Section Workbook.

(** The spreadsheet library: building the workbook and writing
    [wedding-rsvps.xlsx] gives the file, or throws. *)
Variable xlsx_write : list object -> outcome download.

(** [exportXLSX]: the CSV export is the fallback when the library
    throws. *)
Definition exportXLSX (rsvps : list object) (files : list download) : list download :=
  match xlsx_write rsvps with
  | Return f => (files ++ [f])%list
  | Throw _ => exportCSV rsvps files
  end.

End Workbook.

End Exports.

(** ** The photo upload page ([src/pages/qr-photo/index.jsx]) *)
Module QrPhoto.

Import JS.

Section Files.

(** The files picked in the file input. *)
Variable file : Type.

Record upload := {
  scannedData : value;
  files : list file;
  notices : list string
}.

(** [handleScan(data)] *)
Definition handleScan (data : value) (u : upload) : upload :=
  if ToBoolean data
  then {| scannedData := data; files := files u; notices := notices u |}
  else u.

(** [handleFilesChange(e)]: [picked] is [e.target.files], [None] when it
    is missing. *)
Definition handleFilesChange (picked : option (list file)) (u : upload) : upload :=
  match picked with
  | Some fs => {| scannedData := scannedData u; files := (files u ++ fs)%list;
                  notices := notices u |}
  | None => u
  end.

(** [files.filter((_, i) => i !== index)], counting from [i]. *)
Fixpoint filter_index_from (i index : nat) (l : list file) : list file :=
  match l with
  | [] => []
  | f :: rest =>
      if negb (i =? index)%nat then f :: filter_index_from (S i) index rest
      else filter_index_from (S i) index rest
  end.

(** [removeFile(index)] *)
Definition removeFile (index : nat) (u : upload) : upload :=
  {| scannedData := scannedData u; files := filter_index_from 0 index (files u);
     notices := notices u |}.

(** [handleUpload()] *)
Definition handleUpload (u : upload) : upload :=
  match files u with
  | [] => {| scannedData := scannedData u; files := files u;
             notices := (notices u ++ ["No files selected!"])%list |}
  | _ =>
      {| scannedData := VStr ""; files := [];
         notices := (notices u ++
                     [("Uploaded " ++ Num.toString (Num.of_Z (Z.of_nat (length (files u))))
                       ++ " file(s) for QR: " ++ ToString (scannedData u))%string])%list |}
  end.

End Files.

End QrPhoto.

(** * Properties *)

(** ** Basic facts about values and outcomes *)
Module Facts.

Import JS.

Lemma ToBoolean_VStr (s : string) : ToBoolean (VStr s) = true <-> s <> "".
Proof.
  simpl. destruct (String.eqb_spec s ""); simpl; split; congruence.
Qed.

Lemma nullish_falsy (v : value) : is_nullish v = true -> ToBoolean v = false.
Proof. destruct v; simpl; congruence. Qed.

Lemma getProp_nullish (v : value) (k : string) :
  is_nullish v = true -> getProp v k = Throw "TypeError".
Proof. destruct v; simpl; congruence. Qed.

(** A falsy value that is not [null] or [undefined] is a primitive, and
    has none of the properties read. *)
Lemma falsy_getProp (v : value) (k : string) :
  ToBoolean v = false -> is_nullish v = false -> getProp v k = Return VUndef.
Proof. destruct v; simpl; congruence. Qed.

Lemma nan_not_zero : VNum Num.NaN <> VNum zero.
Proof.
  intro H.
  apply (f_equal (fun v => match v with VNum n => is_nan n | _ => false end)) in H.
  vm_compute in H. discriminate.
Qed.

End Facts.

(** ** The validation predicate *)
Module Validation.

Import JS Gateway Facts.
Local Open Scope js_scope.

(** The boolean computed by [validateRSVP], in closed form. *)
Lemma validateRSVP_eval (e : value) :
  validateRSVP e =
  Return (match getProp e "name", getProp e "email" with
          | Return n, Return m => ToBoolean e && ToBoolean n && ToBoolean m
          | _, _ => false
          end).
Proof.
  unfold validateRSVP, and_then, omap, obind.
  destruct e as [| |b|n|s|l|props]; simpl; try reflexivity.
  - destruct b; reflexivity.
  - destruct (Num.truthy n) eqn:E; repeat (progress (simpl; rewrite ?E)); reflexivity.
  - destruct (String.eqb s "") eqn:E; repeat (progress (simpl; rewrite ?E)); reflexivity.
  - destruct (ToBoolean (lookup "name" props)) eqn:Hn;
      repeat (progress (simpl; rewrite ?Hn)); reflexivity.
Qed.

(** C8: [validateRSVP(e)] always returns; it returns [true] exactly when
    [e] is not null/undefined and both [e.name] and [e.email] are truthy
    (for strings: non-empty); the result depends on [e] only through
    these two properties. *)
Theorem validateRSVP_spec :
  (forall e, exists b, validateRSVP e = Return b) /\
  (forall e,
     validateRSVP e = Return true <->
     is_nullish e = false /\
     exists n m, getProp e "name" = Return n /\ getProp e "email" = Return m /\
                 ToBoolean n = true /\ ToBoolean m = true) /\
  (forall props n m,
     lookup "name" props = VStr n -> lookup "email" props = VStr m ->
     (validateRSVP (VObj props) = Return true <-> n <> "" /\ m <> "")) /\
  (forall e1 e2,
     getProp e1 "name" = getProp e2 "name" ->
     getProp e1 "email" = getProp e2 "email" ->
     validateRSVP e1 = validateRSVP e2).
Proof.
  split; [|split; [|split]].
  - intro e. rewrite validateRSVP_eval. eauto.
  - intro e. rewrite validateRSVP_eval. split.
    + intro H.
      destruct (getProp e "name") as [n|] eqn:Hn; [|discriminate].
      destruct (getProp e "email") as [m|] eqn:Hm; [|discriminate].
      injection H as H. apply andb_prop in H as [H Hm'].
      apply andb_prop in H as [_ Hn'].
      split; [|exists n, m; auto].
      destruct (is_nullish e) eqn:Hnull; [|reflexivity].
      rewrite getProp_nullish in Hn by assumption. discriminate.
    + intros [Hnull (n & m & Hn & Hm & Tn & Tm)].
      rewrite Hn, Hm, Tn, Tm.
      destruct (ToBoolean e) eqn:He; [reflexivity|].
      rewrite falsy_getProp in Hn by assumption. injection Hn as <-. discriminate.
  - intros props n m Hn Hm. rewrite validateRSVP_eval. simpl. rewrite Hn, Hm.
    change (ToBoolean (VStr n) && ToBoolean (VStr m))
      with (negb (String.eqb n "") && negb (String.eqb m "")).
    destruct (String.eqb_spec n ""), (String.eqb_spec m ""); simpl;
      split; try discriminate; try (intros [? ?]; congruence); auto.
  - intros e1 e2 Hn Hm. rewrite !validateRSVP_eval, Hn, Hm.
    destruct (getProp e2 "name") as [n|] eqn:Hn2; [|reflexivity].
    destruct (getProp e2 "email") as [m|] eqn:Hm2; [|reflexivity].
    destruct (ToBoolean e1) eqn:T1, (ToBoolean e2) eqn:T2; try reflexivity.
    + assert (is_nullish e2 = false) by (destruct e2; simpl in *; congruence).
      rewrite falsy_getProp in Hn2 by assumption. now injection Hn2 as <-.
    + assert (is_nullish e1 = false) by (destruct e1; simpl in *; congruence).
      rewrite falsy_getProp in Hn by assumption. now injection Hn as <-.
Qed.

Lemma validateRSVP_spec_witness :
  validateRSVP (VObj [("name", VStr "Ana"); ("email", VStr "a@x.com");
                      ("guests", VNum two)]) = Return true
  /\ validateRSVP (VObj [("name", VStr "Ana"); ("email", VStr "")]) <> Return true.
Proof.
  split.
  - apply (proj1 (proj2 (proj2 validateRSVP_spec)) _ "Ana" "a@x.com");
      [reflexivity | reflexivity | split; discriminate].
  - intro H.
    apply (proj1 (proj2 (proj2 validateRSVP_spec)) _ "Ana" "") in H;
      [ destruct H as [_ H]; now apply H | reflexivity | reflexivity ].
Defined.

End Validation.

(** ** Strings: append, membership, joining *)
Module StrFacts.

Import Str.

Lemma append_assoc (a b c : string) : (a ++ b) ++ c = a ++ (b ++ c).
Proof. induction a as [|x a IH]; simpl; [reflexivity | now rewrite IH]. Qed.

Lemma append_nil_r (a : string) : a ++ "" = a.
Proof. induction a as [|x a IH]; simpl; [reflexivity | now rewrite IH]. Qed.

Lemma length_append (a b : string) :
  String.length (a ++ b) = String.length a + String.length b.
Proof. induction a as [|x a IH]; simpl; [reflexivity | now rewrite IH]. Qed.

Lemma has_char_cons_false (c x : ascii) (s : string) :
  has_char c (String x s) = false -> x <> c /\ has_char c s = false.
Proof.
  simpl. intro H. apply orb_false_elim in H as [H1 H2]. split; [|assumption].
  intros ->. now rewrite Ascii.eqb_refl in H1.
Qed.

End StrFacts.

(** ** CSV cells *)
Module CsvCells.

Import JS Gateway Reference Str StrFacts.

Lemma escape_quotes_plain (s : string) :
  has_char DQUOTE s = false -> escape_quotes s = s.
Proof.
  induction s as [|c s IH]; simpl; [reflexivity|].
  intro H. apply has_char_cons_false in H as [Hc Hs].
  apply Ascii.eqb_neq in Hc. rewrite Hc, IH by assumption. reflexivity.
Qed.

(** Doubling is a homomorphism that maps a quote to two quotes and any
    other character to itself. *)
Lemma escape_quotes_append (a b : string) :
  escape_quotes (a ++ b) = escape_quotes a ++ escape_quotes b.
Proof.
  induction a as [|c a IH]; simpl; [reflexivity|].
  destruct (Ascii.eqb c DQUOTE); simpl; now rewrite IH.
Qed.

Lemma escape_quotes_length (s : string) :
  String.length s <= String.length (escape_quotes s).
Proof.
  induction s as [|c s IH]; simpl; [lia|].
  destruct (Ascii.eqb c DQUOTE); simpl; lia.
Qed.

Lemma needsQuotes_false (s : string) :
  needsQuotes s = false ->
  has_char DQUOTE s = false /\ has_char COMMA s = false /\ has_char LF s = false.
Proof.
  unfold needsQuotes. intro H.
  apply orb_false_elim in H as [H H3]. apply orb_false_elim in H as [H1 H2]. auto.
Qed.

Lemma csvCell_text (v : value) :
  csvCell v =
  if needsQuotes (cell_text v)
  then one DQUOTE ++ escape_quotes (cell_text v) ++ one DQUOTE
  else cell_text v.
Proof.
  unfold csvCell, cell_text.
  destruct (needsQuotes (if is_nullish v then "" else ToString v)) eqn:E;
    [reflexivity|].
  apply escape_quotes_plain. now apply needsQuotes_false in E.
Qed.

(** The doubling of the code is the doubling of the specification. *)
Lemma escape_quotes_doubled (s : string) : escape_quotes s = doubled s.
Proof.
  unfold doubled. induction s as [|c s IH]; simpl; [reflexivity|].
  rewrite IH. now destruct (Ascii.eqb c DQUOTE).
Qed.

Lemma undouble_doubled (s : string) : undouble (doubled s) = Some s.
Proof.
  rewrite <- escape_quotes_doubled.
  induction s as [|c s IH]; [reflexivity|].
  simpl escape_quotes. destruct (Ascii.eqb c DQUOTE) eqn:E.
  - apply Ascii.eqb_eq in E as ->.
    change (undouble (String DQUOTE (String DQUOTE (escape_quotes s))))
      with (match undouble (escape_quotes s) with
            | Some t => Some (String DQUOTE t)
            | None => None
            end).
    now rewrite IH.
  - simpl. now rewrite E, IH.
Qed.

Lemma doubled_quote_count (s : string) :
  length (filter (Ascii.eqb DQUOTE) (list_ascii_of_string (doubled s))) =
  2 * length (filter (Ascii.eqb DQUOTE) (list_ascii_of_string s)).
Proof.
  rewrite <- escape_quotes_doubled.
  induction s as [|c s IH]; [reflexivity|].
  simpl escape_quotes. destruct (Ascii.eqb c DQUOTE) eqn:E.
  - apply Ascii.eqb_eq in E as ->. simpl. rewrite IH. lia.
  - simpl. rewrite Ascii.eqb_sym, E. exact IH.
Qed.



End CsvCells.

(** ** Normalisation of listed rows *)
Module Normalisation.

Import JS Gateway Reference Facts.
Local Open Scope js_scope.

Lemma or_else_Return (x y : value) :
  Return x <|> Return y = Return (if ToBoolean x then x else y).
Proof. unfold or_else, obind. now destruct (ToBoolean x). Qed.

Lemma first_truthy_cons (v : value) (l : list value) (d : value) :
  first_truthy (v :: l) d = if ToBoolean v then v else first_truthy l d.
Proof. reflexivity. Qed.

Ltac split_truthy :=
  repeat match goal with
         | |- context [ToBoolean ?v] =>
             lazymatch v with
             | lookup _ _ => let E := fresh "E" in
                             destruct (ToBoolean v) eqn:E; rewrite ?E
             end
         end.

(** On a plain object no property read throws, and each field is the
    first truthy reading along its chain of exact names. *)
Lemma normalizeRow_object (r : object) :
  normalizeRow (VObj r) = Return (normalize_exact r).
Proof.
  unfold normalizeRow, normalize_exact, getProp.
  rewrite !or_else_Return. unfold obind, map. rewrite !first_truthy_cons.
  unfold first_truthy.
  split_truthy; reflexivity.
Qed.

(** Arrays and primitives have none of the properties read. *)
Lemma normalizeRow_value (v : value) :
  normalizeRow v =
  if is_nullish v then Throw "TypeError" else Return (normalize_exact (own_props v)).
Proof.
  destruct v; try reflexivity.
  apply normalizeRow_object.
Qed.

Lemma lookup_absent (k : string) (r : object) :
  ~ In k (keys r) -> lookup k r = VUndef.
Proof.
  induction r as [|[k' v] r IH]; simpl; [reflexivity|].
  intro H. destruct (String.eqb_spec k k') as [->|Hne].
  - exfalso. apply H. now left.
  - apply IH. intro. apply H. now right.
Qed.

Lemma keys_normalize_exact (r : object) : keys (normalize_exact r) = canonical_keys.
Proof. reflexivity. Qed.

Lemma mapM_normalizeRow (elems : list value) :
  mapM normalizeRow elems =
  if existsb is_nullish elems then Throw "TypeError"
  else Return (map (fun v => normalize_exact (own_props v)) elems).
Proof.
  induction elems as [|v elems IH]; simpl; [reflexivity|].
  rewrite normalizeRow_value.
  destruct (is_nullish v); simpl; [reflexivity|].
  rewrite IH. now destruct (existsb is_nullish elems).
Qed.

Lemma keepRow_truthy (x : object) :
  keepRow x = ToBoolean (lookup "name" x) || ToBoolean (lookup "email" x).
Proof.
  unfold keepRow. now destruct (ToBoolean (lookup "name" x)) eqn:E; rewrite ?E.
Qed.

Section Refresh.

Variable url : option string.
Variable remote : list request -> request -> option response.

(** What [refreshRSVPs] leaves in the [rsvps] state of an admin session:
    the kept normalised rows, or the empty list after any failure. *)
Lemma refreshRSVPs_rsvps (w : world) :
  rsvps (snd (refreshRSVPs url remote true w)) =
  match fetched url remote w with
  | Return rows =>
      match array_map normalizeRow rows with
      | Return norm => filter keepRow norm
      | Throw _ => []
      end
  | Throw _ => []
  end.
Proof.
  unfold refreshRSVPs, fetched, bind, try_finally, try_catch, lift. simpl.
  destruct (fetchRSVPsFromSheets url remote _) as [[rows|e] w1]; simpl;
    [|reflexivity].
  destruct (array_map normalizeRow rows); reflexivity.
Qed.

Lemma refreshRSVPs_members (w : world) (x : object) :
  In x (rsvps (snd (refreshRSVPs url remote true w))) ->
  exists elems row,
    fetched url remote w = Return (VArr elems) /\ In row elems /\
    x = normalize_exact (own_props row) /\ keepRow x = true.
Proof.
  rewrite refreshRSVPs_rsvps.
  destruct (fetched url remote w) as [rows|e]; [|contradiction].
  destruct rows as [| | | | |elems|]; simpl; try contradiction.
  rewrite mapM_normalizeRow.
  destruct (existsb is_nullish elems); [contradiction|].
  intro H. apply filter_In in H as [H K].
  apply in_map_iff in H as (row & <- & Hrow).
  exists elems, row. auto.
Qed.

End Refresh.

(** *** Guests *)




(** *** The fallback chains *)


Lemma normalize_exact_ext (r r' : object) :
  (forall k, In k chain_keys -> lookup k r = lookup k r') ->
  normalize_exact r = normalize_exact r'.
Proof.
  intro H. unfold normalize_exact, map.
  rewrite !(H "name"), !(H "Name"), !(H "full_name"), !(H "email"), !(H "Email"),
    !(H "attending"), !(H "Attending"), !(H "guests"), !(H "Guests"),
    !(H "message"), !(H "Message"), !(H "timestamp"), !(H "Timestamp"),
    !(H "time"), !(H "Time") by (simpl; tauto).
  reflexivity.
Qed.



(** *** Canonical rows *)

Lemma canonical_absent (r : object) (k : string) :
  canonical_row r -> ~ In k canonical_keys -> lookup k r = VUndef.
Proof.
  intros (_ & Hk & _) Hn. apply lookup_absent. intro H. now apply Hk in H.
Qed.

Lemma text_field_fixed (s : string) (l : list value) :
  Forall (fun v => v = VUndef) l ->
  first_truthy (VStr s :: l) (VStr "") = VStr s.
Proof.
  intro H. rewrite first_truthy_cons.
  destruct (ToBoolean (VStr s)) eqn:E; [reflexivity|].
  assert (s = "") as ->.
  { destruct (String.eqb_spec s ""); [assumption|].
    exfalso. apply ToBoolean_VStr in n. congruence. }
  induction H as [|v l -> _ IH]; [reflexivity | exact IH].
Qed.

Lemma VNum_inj (a b : Num.number) : VNum a = VNum b -> a = b.
Proof.
  intro H.
  exact (f_equal (fun v => match v with VNum n => n | _ => a end) H).
Qed.

Lemma or_zero_fixed (n : Num.number) :
  (if Num.truthy n then n else zero) = n <-> count_like n.
Proof.
  unfold count_like. destruct (Num.truthy n); split; auto.
  intros [H|H]; [discriminate | now symmetry].
Qed.

(** The fields of a normalised canonical row. *)
Lemma canonical_fields (r : object) (n : Num.number) :
  canonical_row r -> lookup "guests" r = VNum n ->
  normalize_exact r =
  [("name", lookup "name" r); ("email", lookup "email" r);
   ("attending", lookup "attending" r);
   ("guests", VNum (if Num.truthy n then n else zero));
   ("message", lookup "message" r);
   ("timestamp", lookup "timestamp" r)].
Proof.
  intros C Hn.
  assert (Habs : forall k, ~ In k canonical_keys -> lookup k r = VUndef)
    by (intros; now apply canonical_absent).
  destruct C as (Hnd & Hk & Ht & _).
  unfold normalize_exact, map.
  rewrite (Habs "Name"), (Habs "full_name"), (Habs "Email"), (Habs "Attending"),
    (Habs "Guests"), (Habs "Message"), (Habs "Timestamp"), (Habs "time"),
    (Habs "Time")
    by (simpl; intros H; repeat (destruct H as [H|H]; [discriminate|]); exact H).
  destruct (Ht "name") as [s1 ->]; [simpl; tauto|].
  destruct (Ht "email") as [s2 ->]; [simpl; tauto|].
  destruct (Ht "attending") as [s3 ->]; [simpl; tauto|].
  destruct (Ht "message") as [s4 ->]; [simpl; tauto|].
  destruct (Ht "timestamp") as [s5 ->]; [simpl; tauto|].
  rewrite !text_field_fixed by (repeat constructor).
  rewrite Hn. repeat f_equal.
  rewrite first_truthy_cons.
  change (ToBoolean (VNum n)) with (Num.truthy n).
  now destruct (Num.truthy n).
Qed.

(** A row that the normalisation itself yields, for a guests text that
    is no number, is canonical in the words of the specification and is
    changed by a second normalisation: its guests go from [NaN] to [0]. *)
Lemma canonical_not_idempotent_counterexample :
  let raw := VObj [("name", VStr "Ana"); ("guests", VStr "abc")] in
  exists r x,
    normalizeRow raw = Return r /\ canonical_row r /\ keys r = canonical_keys /\
    lookup "guests" r = VNum Num.NaN /\
    normalizeRow (VObj r) = Return x /\
    lookup "guests" x = VNum zero /\ x <> r.
Proof.
  eexists. eexists.
  split; [reflexivity|]. split; [|split; [reflexivity|]].
  - split; [|split; [|split]].
    + repeat constructor; simpl; intuition discriminate.
    + intro k. reflexivity.
    + intros k H. simpl in H.
      repeat (destruct H as [<-|H]; [eexists; reflexivity|]). contradiction.
    + eexists. reflexivity.
  - split; [reflexivity|]. split; [reflexivity|]. split; [reflexivity|].
    intro H. apply (f_equal (lookup "guests")) in H.
    apply nan_not_zero. symmetry. exact H.
Qed.

(** C7, amended: normalising an already-canonical row gives a row with
    the same keys and the same value under every key but [guests], whose
    number [n] becomes [n || 0]; so the row comes back with the same
    value under every key exactly when its guests are neither [NaN] nor
    the negative zero, it is then the very same row when the keys come
    in the canonical order, and the list keeps it as soon as its name or
    its email is not empty. *)
Theorem canonical_idempotent (r : object) (n : Num.number) :
  canonical_row r -> lookup "guests" r = VNum n ->
  exists x,
    normalizeRow (VObj r) = Return x /\
    (forall k, In k (keys x) <-> In k (keys r)) /\
    (forall k, k <> "guests" -> lookup k x = lookup k r) /\
    lookup "guests" x = VNum (if Num.truthy n then n else zero) /\
    ((forall k, lookup k x = lookup k r) <-> count_like n) /\
    (count_like n -> keys r = canonical_keys -> x = r) /\
    (keepRow x = true <-> lookup "name" r <> VStr "" \/ lookup "email" r <> VStr "").
Proof.
  intros C Hn. exists (normalize_exact r).
  split; [apply normalizeRow_object|].
  assert (Habs : forall k, ~ In k canonical_keys -> lookup k r = VUndef)
    by (intros; now apply canonical_absent).
  pose proof (canonical_fields r n C Hn) as Hfields.
  destruct C as (Hnd & Hk & Ht & _).
  assert (Hother : forall k, k <> "guests" ->
                             lookup k (normalize_exact r) = lookup k r).
  { intros k Hg. rewrite Hfields. simpl.
    repeat match goal with
           | |- context [String.eqb k ?c] =>
               destruct (String.eqb_spec k c) as [->|?];
               [first [reflexivity | contradiction]|]
           end.
    symmetry. apply Habs. simpl. intuition congruence. }
  assert (Hguests : lookup "guests" (normalize_exact r) =
                    VNum (if Num.truthy n then n else zero))
    by (rewrite Hfields; reflexivity).
  split; [|split; [|split; [|split; [|split]]]].
  - intro k. rewrite keys_normalize_exact. symmetry. apply Hk.
  - exact Hother.
  - exact Hguests.
  - rewrite <- or_zero_fixed. split.
    + intro H. specialize (H "guests"). rewrite Hguests, Hn in H.
      now apply VNum_inj.
    + intros E k. destruct (String.eqb_spec k "guests") as [->|Hg].
      * rewrite Hguests, Hn. now f_equal.
      * now apply Hother.
  - intros Hc Hkeys. apply or_zero_fixed in Hc. rewrite Hfields, Hc, <- Hn.
    clear Hfields Hk Ht Hn Habs Hnd Hother Hguests Hc.
    unfold keys, canonical_keys in Hkeys.
    repeat (destruct r as [|[? ?] r]; [discriminate|]).
    destruct r; [|discriminate].
    simpl in Hkeys. injection Hkeys as -> -> -> -> -> ->. reflexivity.
  - rewrite keepRow_truthy, (Hother "name"), (Hother "email") by discriminate.
    destruct (Ht "name") as [s1 ->]; [simpl; tauto|].
    destruct (Ht "email") as [s2 ->]; [simpl; tauto|].
    rewrite orb_true_iff, !ToBoolean_VStr.
    split; (intros [H|H]; [left|right]; congruence).
Qed.

Lemma canonical_idempotent_witness :
  let r := [("name", VStr "Ana"); ("email", VStr "a@x.com");
            ("attending", VStr "Yes"); ("guests", VNum two);
            ("message", VStr ""); ("timestamp", VStr "2025-01-01T00:00:00.000Z")] in
  canonical_row r /\ normalizeRow (VObj r) = Return r.
Proof.
  intro r.
  assert (C : canonical_row r).
  { split; [|split; [|split]].
    - repeat constructor; simpl; intuition discriminate.
    - intro k. reflexivity.
    - intros k H. simpl in H.
      repeat (destruct H as [<-|H]; [eexists; reflexivity|]). contradiction.
    - exists two. reflexivity. }
  split; [exact C|].
  destruct (canonical_idempotent r two C eq_refl) as (x & Hx & _ & _ & _ & _ & Heq & _).
  rewrite Hx. f_equal. apply Heq; [left|]; reflexivity.
Defined.

(** *** The list kept by [refreshRSVPs] *)

Lemma truthy_not_empty (v : value) : ToBoolean v = true -> v <> VStr "".
Proof. intros H ->. discriminate. Qed.

(** C9: after [refreshRSVPs] in an admin session, every entry of the
    list has a non-empty (truthy) name or email, so a normalised row with
    both empty is not in it; and when the remote answers with an array
    without null elements, the list is exactly the normalised rows that
    have a name or an email, in order. *)
Theorem dropped_rows (url : option string)
    (remote : list request -> request -> option response) (w : world) :
  let final := rsvps (snd (refreshRSVPs url remote true w)) in
  (forall x, In x final ->
     (ToBoolean (lookup "name" x) = true \/ ToBoolean (lookup "email" x) = true) /\
     (lookup "name" x <> VStr "" \/ lookup "email" x <> VStr "")) /\
  (forall x, lookup "name" x = VStr "" -> lookup "email" x = VStr "" ->
             ~ In x final) /\
  (forall elems,
     fetched url remote w = Return (VArr elems) ->
     existsb is_nullish elems = false ->
     final = filter keepRow (map (fun row => normalize_exact (own_props row)) elems)).
Proof.
  intro final.
  assert (H1 : forall x, In x final ->
     ToBoolean (lookup "name" x) = true \/ ToBoolean (lookup "email" x) = true).
  { intros x Hx. apply refreshRSVPs_members in Hx as (_ & _ & _ & _ & _ & K).
    rewrite keepRow_truthy in K. now apply orb_prop in K. }
  split; [|split].
  - intros x Hx. split; [now apply H1|].
    destruct (H1 x Hx) as [H|H]; [left|right]; now apply truthy_not_empty.
  - intros x Hn He Hx. destruct (H1 x Hx) as [H|H].
    + rewrite Hn in H. discriminate.
    + rewrite He in H. discriminate.
  - intros elems Hf Hnull. subst final.
    rewrite refreshRSVPs_rsvps, Hf. simpl.
    now rewrite mapM_normalizeRow, Hnull.
Qed.

Lemma dropped_rows_witness :
  rsvps (snd (refreshRSVPs (Some "https://script.example/exec") sample_remote true
                initial_world)) =
  [ [("name", VStr "Bo"); ("email", VStr ""); ("attending", VStr "");
     ("guests", VNum zero); ("message", VStr "");
     ("timestamp", VStr "2025-01-01T00:00:00Z")] ].
Proof.
  rewrite (proj2 (proj2 (dropped_rows (Some "https://script.example/exec")
                           sample_remote initial_world)) _ eq_refl eq_refl).
  reflexivity.
Defined.

(** *** Shape of the records *)

(** C10 fails as stated: a truthy value that is not a string is copied
    into a text field as it is. *)
Lemma record_shape_counterexample :
  let remote := fun (_ : list request) (_ : request) =>
    Some {| res_status := 200;
            res_json := Some (VArr [VObj [("name", VNum (Num.of_Z 42))]]) |} in
  exists x,
    In x (rsvps (snd (refreshRSVPs (Some "https://script.example/exec") remote true
                        initial_world))) /\
    lookup "name" x = VNum (Num.of_Z 42) /\
    forall s, lookup "name" x <> VStr s.
Proof.
  intro remote. eexists. split; [left; reflexivity|].
  split; [reflexivity|]. intros s H. vm_compute in H. discriminate.
Qed.

Lemma first_truthy_cases (l : list value) (d : value) :
  first_truthy l d = d \/ (In (first_truthy l d) l /\ ToBoolean (first_truthy l d) = true).
Proof.
  induction l as [|v l IH]; simpl; [now left|].
  destruct (ToBoolean v) eqn:E; [right; auto|].
  destruct IH as [IH|[IH T]]; [now left | right; auto].
Qed.

Lemma first_truthy_text (l : list value) (s0 : string) :
  Forall (fun v => is_nullish v = true \/ exists s, v = VStr s) l ->
  exists s, first_truthy l (VStr s0) = VStr s.
Proof.
  induction 1 as [|v l Hv _ IH]; simpl; [eauto|].
  destruct (ToBoolean v) eqn:E; [|exact IH].
  destruct Hv as [Hv|[s ->]]; [|eauto].
  apply nullish_falsy in Hv. congruence.
Qed.

Lemma lookup_text_key (r : object) (k : string) :
  In k text_keys ->
  exists l, lookup k (normalize_exact r) = first_truthy l (VStr "") /\
            Forall (fun v => exists k', v = lookup k' r) l.
Proof.
  intro Hk. simpl in Hk.
  repeat (destruct Hk as [<-|Hk];
          [ eexists; split;
            [ reflexivity | simpl; repeat constructor; eexists; reflexivity ] |]).
  contradiction.
Qed.

(** C10, amended: whatever the remote answers, every record left by
    [refreshRSVPs] has exactly the six canonical keys, a number under
    [guests], and under each text key either the empty string or a truthy
    value copied from the row, which is a string whenever the row's
    properties are strings. *)
Theorem record_shape (url : option string)
    (remote : list request -> request -> option response) (w : world)
    (x : object) :
  In x (rsvps (snd (refreshRSVPs url remote true w))) ->
  keys x = canonical_keys /\
  (exists n, lookup "guests" x = VNum n) /\
  (forall k, In k text_keys ->
     lookup k x = VStr "" \/ ToBoolean (lookup k x) = true) /\
  exists elems row,
    fetched url remote w = Return (VArr elems) /\ In row elems /\
    x = normalize_exact (own_props row) /\
    (text_row (own_props row) ->
     forall k, In k text_keys -> exists s, lookup k x = VStr s).
Proof.
  intro Hx. apply refreshRSVPs_members in Hx as (elems & row & Hf & Hrow & -> & _).
  split; [reflexivity|]. split; [eexists; reflexivity|]. split.
  - intros k Hk.
    destruct (lookup_text_key (own_props row) k Hk) as (l & -> & _).
    destruct (first_truthy_cases l (VStr "")) as [->|[_ ->]]; auto.
  - exists elems, row. repeat split; try assumption.
    intros T k Hk.
    destruct (lookup_text_key (own_props row) k Hk) as (l & -> & Hl).
    apply first_truthy_text.
    apply Forall_impl with (2 := Hl). intros v [k' ->]. apply T.
Qed.

Lemma record_shape_witness :
  keys [("name", VStr "Bo"); ("email", VStr ""); ("attending", VStr "");
        ("guests", VNum zero); ("message", VStr "");
        ("timestamp", VStr "2025-01-01T00:00:00Z")] = canonical_keys.
Proof.
  refine (proj1 (record_shape (Some "https://script.example/exec") sample_remote
                   initial_world _ _)).
  left. reflexivity.
Defined.

End Normalisation.

(** ** Requests *)
Module Requests.

Import JS Gateway Reference Facts.
Local Open Scope js_scope.

Section Deployment.

Variable url : option string.
Variable remote : list request -> request -> option response.
Variable now : nat -> string.

(** The listing call checks [isSheetsConfigured] before anything else. *)
Lemma fetchRSVPs_unconfigured (w : world) :
  isSheetsConfigured url = false ->
  fetchRSVPsFromSheets url remote w = (Throw "SHEETS_URL_NOT_CONFIGURED", w).
Proof. unfold fetchRSVPsFromSheets. now intros ->. Qed.

(** So does the POST revision of the submission call. *)
Lemma addRSVP_POST_unconfigured (entry : value) (w : world) :
  isSheetsConfigured url = false ->
  addRSVPToSheets_POST url remote entry w = (Throw "SHEETS_URL_NOT_CONFIGURED", w).
Proof. unfold addRSVPToSheets_POST. now intros ->. Qed.

(** The GET revision only checks that the URL is a non-empty string. *)
Lemma addRSVP_GET_absent (entry : value) (w : world) :
  url = None \/ url = Some "" ->
  addRSVPToSheets url remote now entry w = (Throw "SHEETS_URL_NOT_CONFIGURED", w).
Proof. unfold addRSVPToSheets. now intros [-> | ->]. Qed.

(** A public visitor's refresh does nothing. *)
Lemma refreshRSVPs_public (w : world) :
  refreshRSVPs url remote false w = (Return tt, w).
Proof. reflexivity. Qed.

(** The parameters built by the GET revision, in closed form. *)
Lemma add_params_eval (entry : value) (w : world) :
  add_params now entry w =
  if is_nullish entry then (Throw "TypeError", w)
  else
    let r := own_props entry in
    let text k := ToString (first_truthy [lookup k r] (VStr "")) in
    (Return [ ("action", "add"); ("name", text "name"); ("email", text "email");
              ("attending", text "attending");
              ("guests", if ToBoolean (lookup "guests" r)
                         then ToString (lookup "guests" r) else "0");
              ("message", text "message");
              ("timestamp", now (clock_reads w)) ],
     {| net_log := net_log w; clock_reads := S (clock_reads w);
        rsvps := rsvps w; loading := loading w |}).
Proof.
  destruct entry as [| |b|n|s|l|props]; try reflexivity.
  unfold add_params, bind, lift, ret, Date_toISOString, getProp, own_props.
  rewrite !Normalisation.or_else_Return. simpl.
  destruct w; reflexivity.
Qed.

(** With any non-empty URL, whatever it starts with, the GET revision
    issues exactly one request for an entry that is not null. *)
Lemma addRSVP_GET_one_request (u : string) (entry : value) (w : world) :
  url = Some u -> u <> "" -> is_nullish entry = false ->
  exists query,
    net_log (snd (addRSVPToSheets url remote now entry w)) =
    (net_log w ++ [GET (u ++ "?" ++ query)])%list.
Proof.
  intros -> Hu He. unfold addRSVPToSheets.
  apply String.eqb_neq in Hu. rewrite Hu.
  unfold bind. rewrite add_params_eval, He. cbv beta iota zeta.
  match goal with
  | |- context [URLSearchParams_toString ?x] => exists (URLSearchParams_toString x)
  end.
  unfold try_catch, bind, fetch, throw, json, ret. simpl.
  destruct (remote _ _) as [res|]; simpl; [|reflexivity].
  destruct (res_ok res); simpl; [|reflexivity].
  destruct (res_json res); reflexivity.
Qed.

Lemma getProp_own_props (e1 e2 : value) (k : string) :
  getProp e1 k = getProp e2 k ->
  is_nullish e1 = is_nullish e2 /\
  (is_nullish e1 = false -> lookup k (own_props e1) = lookup k (own_props e2)).
Proof.
  destruct e1, e2; simpl; intro H; try discriminate; split; try reflexivity;
    try discriminate; intros _; try (injection H as H); auto.
Qed.

End Deployment.

(** C2 (code defect): with a store URL that is set but does not start
    with http, the listing call and the POST revision of the submission
    call fail with the not-configured error without touching the network,
    but the GET revision of [addRSVPToSheets] issues its request. *)
Theorem unconfigured_add_reaches_network :
  let url := Some "script.example/macros/s/ABC/exec" in
  isSheetsConfigured url = false /\
  fetchRSVPsFromSheets url ack_remote initial_world
    = (Throw "SHEETS_URL_NOT_CONFIGURED", initial_world) /\
  addRSVPToSheets_POST url ack_remote sample_entry initial_world
    = (Throw "SHEETS_URL_NOT_CONFIGURED", initial_world) /\
  fst (addRSVPToSheets url ack_remote fixed_clock sample_entry initial_world)
    = Return (VObj [("ok", VBool true)]) /\
  net_log (snd (addRSVPToSheets url ack_remote fixed_clock sample_entry initial_world))
    = [ GET ("script.example/macros/s/ABC/exec?action=add&name=Ana&email=a%40x.com"
             ++ "&attending=Yes&guests=2&message="
             ++ "&timestamp=2025-01-01T00%3A00%3A00.000Z") ].
Proof. repeat split. Qed.

(** C3 fails as stated: the GET revision of [addRSVPToSheets] stamps the
    request with the reading of the client clock even though the entry
    supplies a timestamp of its own. *)
Lemma supplied_timestamp_counterexample :
  getProp sample_entry "timestamp" = Return (VStr "2024-12-31T23:59:59.000Z") /\
  fst (add_params fixed_clock sample_entry initial_world)
    = Return [ ("action", "add"); ("name", "Ana"); ("email", "a@x.com");
               ("attending", "Yes"); ("guests", "2"); ("message", "");
               ("timestamp", "2025-01-01T00:00:00.000Z") ] /\
  net_log (snd (addRSVPToSheets (Some "https://script.example/exec") ack_remote
                  fixed_clock sample_entry initial_world))
    = [ GET ("https://script.example/exec?action=add&name=Ana&email=a%40x.com"
             ++ "&attending=Yes&guests=2&message="
             ++ "&timestamp=2025-01-01T00%3A00%3A00.000Z") ].
Proof. repeat split. Qed.

(** C3, amended: the GET revision of [addRSVPToSheets] always carries the
    reading of the client clock taken at the call as its only timestamp
    parameter, whatever the entry supplies: two entries that agree on
    name, email, attending, guests and message behave alike.  The POST
    revision never reads the clock; when configured it sends one request
    whose body is the JSON text of the action and of the entry as
    supplied. *)
Theorem timestamp_stamping (url : option string)
    (remote : list request -> request -> option response) (now : nat -> string) :
  (forall entry w params w',
     add_params now entry w = (Return params, w') ->
     In ("timestamp", now (clock_reads w)) params /\
     (forall v, In ("timestamp", v) params -> v = now (clock_reads w)) /\
     clock_reads w' = S (clock_reads w)) /\
  (forall e1 e2 w,
     (forall k, In k entry_keys -> getProp e1 k = getProp e2 k) ->
     addRSVPToSheets url remote now e1 w = addRSVPToSheets url remote now e2 w) /\
  (forall entry w,
     clock_reads (snd (addRSVPToSheets_POST url remote entry w)) = clock_reads w) /\
  (forall entry w,
     isSheetsConfigured url = true ->
     net_log (snd (addRSVPToSheets_POST url remote entry w)) =
     (net_log w ++
      [ {| req_method := "POST"; req_url := url_text url;
           req_headers := [("Content-Type", "application/json")];
           req_body := JSON_stringify
                         (VObj [("action", VStr "add"); ("entry", entry)]) |} ])%list).
Proof.
  split; [|split; [|split]].
  - intros entry w params w' H. rewrite add_params_eval in H.
    destruct (is_nullish entry); [discriminate|].
    injection H as <- <-. split; [|split].
    + simpl. tauto.
    + intros v Hv. simpl in Hv.
      repeat (destruct Hv as [Hv|Hv]; [try discriminate|]);
        [now injection Hv as <- | contradiction].
    + reflexivity.
  - intros e1 e2 w H. unfold addRSVPToSheets.
    destruct (match url with Some u => String.eqb u "" | None => true end);
      [reflexivity|].
    unfold bind. rewrite !add_params_eval.
    destruct (getProp_own_props e1 e2 "name" (H "name" ltac:(simpl; tauto)))
      as [Hnull Hname].
    rewrite <- Hnull. destruct (is_nullish e1) eqn:E; [reflexivity|].
    pose proof (fun k Hk => proj2 (getProp_own_props e1 e2 k (H k Hk)) E) as Hk.
    cbv beta zeta.
    rewrite (Hk "name"), (Hk "email"), (Hk "attending"), (Hk "guests"),
      (Hk "message") by (simpl; tauto).
    reflexivity.
  - intros entry w. unfold addRSVPToSheets_POST.
    destruct (isSheetsConfigured url); simpl; [|reflexivity].
    unfold bind, fetch, throw, json, ret.
    destruct (remote _ _) as [res|]; simpl; [|reflexivity].
    destruct (res_ok res); simpl; [|reflexivity].
    destruct (res_json res); reflexivity.
  - intros entry w Hc. unfold addRSVPToSheets_POST. rewrite Hc. simpl.
    unfold bind, fetch, throw, json, ret.
    destruct (remote _ _) as [res|]; simpl; [|reflexivity].
    destruct (res_ok res); simpl; [|reflexivity].
    destruct (res_json res); reflexivity.
Qed.

Lemma timestamp_stamping_witness :
  addRSVPToSheets (Some "https://script.example/exec") ack_remote fixed_clock
    sample_entry initial_world =
  addRSVPToSheets (Some "https://script.example/exec") ack_remote fixed_clock
    (VObj [("email", VStr "a@x.com"); ("name", VStr "Ana"); ("attending", VStr "Yes");
           ("guests", VNum two); ("message", VStr "")])
    initial_world.
Proof.
  apply (proj1 (proj2 (timestamp_stamping (Some "https://script.example/exec")
                         ack_remote fixed_clock))).
  intros k Hk. simpl in Hk.
  repeat (destruct Hk as [<-|Hk]; [reflexivity|]). contradiction.
Defined.

End Requests.

(** ** Decoding what [rowsToCSV] writes *)
Module CsvRoundTrip.

Import JS Gateway Reference Str StrFacts CsvCells.

(** *** Single steps of the decoder *)

Lemma decode_comma (st : pstate) (cur : string) (row : list string) (r : string) :
  st <> Quoted ->
  decode st cur row (String COMMA r) = decode FieldStart "" (row ++ [cur])%list r.
Proof. destruct st; intro H; try reflexivity. contradiction. Qed.

Lemma decode_lf (st : pstate) (cur : string) (row : list string) (r : string) :
  st <> Quoted -> st <> AfterCR ->
  decode st cur row (String LF r) = (row ++ [cur])%list :: decode RecordStart "" [] r.
Proof. destruct st; intros H1 H2; try reflexivity; contradiction. Qed.

Lemma decode_open (st : pstate) (cur : string) (row : list string) (r : string) :
  at_start st = true ->
  decode st cur row (String DQUOTE r) = decode Quoted "" row r.
Proof. destruct st; intro H; try reflexivity; discriminate. Qed.

Lemma decode_eof (st : pstate) (cur : string) (row : list string) :
  st <> RecordStart -> st <> AfterCR ->
  decode st cur row "" = [(row ++ [cur])%list].
Proof. destruct st; intros H1 H2; try reflexivity; contradiction. Qed.

Lemma plain_cons (c : ascii) (s : string) :
  plain (String c s) = true ->
  Ascii.eqb c DQUOTE = false /\ Ascii.eqb c COMMA = false /\
  Ascii.eqb c LF = false /\ Ascii.eqb c CR = false /\ plain s = true.
Proof.
  unfold plain. intro H. apply negb_true_iff in H.
  apply orb_false_elim in H as [H H4]. apply orb_false_elim in H as [H H3].
  apply orb_false_elim in H as [H1 H2].
  apply has_char_cons_false in H1 as [H1 H1'], H2 as [H2 H2'],
      H3 as [H3 H3'], H4 as [H4 H4'].
  rewrite H1', H2', H3', H4'. repeat split; now apply Ascii.eqb_neq.
Qed.

Lemma decode_ordinary (st : pstate) (cur : string) (row : list string)
    (c : ascii) (r : string) :
  st <> Quoted ->
  Ascii.eqb c DQUOTE = false -> Ascii.eqb c COMMA = false ->
  Ascii.eqb c LF = false -> Ascii.eqb c CR = false ->
  decode st cur row (String c r) = decode Unquoted (snoc_char cur c) row r.
Proof.
  intros H H1 H2 H3 H4. destruct st; simpl; rewrite H1, ?H2, ?H3, ?H4;
    try reflexivity. contradiction.
Qed.

(** *** Runs of characters *)

Lemma snoc_append (cur : string) (c : ascii) (s : string) :
  snoc_char cur c ++ s = cur ++ String c s.
Proof. unfold snoc_char. now rewrite append_assoc. Qed.

(** Text without special characters is read as it stands. *)
Lemma unquoted_run (s : string) :
  plain s = true ->
  forall cur row rest,
    decode Unquoted cur row (s ++ rest) = decode Unquoted (cur ++ s) row rest.
Proof.
  induction s as [|c s IH]; intros P cur row rest.
  - now rewrite append_nil_r.
  - apply plain_cons in P as (H1 & H2 & H3 & H4 & P).
    change (String c s ++ rest) with (String c (s ++ rest)).
    rewrite decode_ordinary by (assumption || discriminate).
    rewrite IH by assumption. now rewrite snoc_append.
Qed.

(** Doubled quotes inside a quoted field are read back as single ones,
    and everything else, line breaks included, as it stands. *)
Lemma quoted_run (s : string) :
  forall cur row rest,
    decode Quoted cur row (escape_quotes s ++ String DQUOTE rest) =
    decode QuoteSeen (cur ++ s) row rest.
Proof.
  induction s as [|c s IH]; intros cur row rest.
  - simpl. now rewrite append_nil_r.
  - simpl escape_quotes. destruct (Ascii.eqb c DQUOTE) eqn:E.
    + apply Ascii.eqb_eq in E. subst c.
      change (decode Quoted cur row
                (String DQUOTE (String DQUOTE (escape_quotes s ++ String DQUOTE rest))) =
              decode QuoteSeen (cur ++ String DQUOTE s) row rest).
      simpl. rewrite ?Ascii.eqb_refl. rewrite IH. now rewrite snoc_append.
    + change (decode Quoted cur row (String c (escape_quotes s ++ String DQUOTE rest)) =
              decode QuoteSeen (cur ++ String c s) row rest).
      simpl. rewrite E. rewrite IH. now rewrite snoc_append.
Qed.

(** *** Cells *)

Lemma guarded_plain (s : string) :
  cr_guarded s = true -> needsQuotes s = false -> plain s = true.
Proof.
  unfold cr_guarded, plain. intros G N. rewrite N in G.
  rewrite orb_false_r in G. apply negb_true_iff in G.
  apply needsQuotes_false in N as (N1 & N2 & N3).
  now rewrite N1, N2, N3, G.
Qed.

(** Reading a cell leaves the decoder at the end of a field holding the
    cell's text. *)
Lemma cell_then (v : value) (st : pstate) (row : list string) (rest : string) :
  cr_guarded (cell_text v) = true -> fresh st ->
  decode st "" row (csvCell v ++ rest) =
  if needsQuotes (cell_text v) then decode QuoteSeen (cell_text v) row rest
  else match cell_text v with
       | EmptyString => decode st "" row rest
       | _ => decode Unquoted (cell_text v) row rest
       end.
Proof.
  intros G F. rewrite csvCell_text.
  destruct (needsQuotes (cell_text v)) eqn:N.
  - change ((one DQUOTE ++ escape_quotes (cell_text v) ++ one DQUOTE) ++ rest)
      with (String DQUOTE ((escape_quotes (cell_text v) ++ one DQUOTE) ++ rest)).
    rewrite decode_open by (destruct F as [-> | ->]; reflexivity).
    rewrite append_assoc. change (one DQUOTE ++ rest) with (String DQUOTE rest).
    now rewrite quoted_run.
  - pose proof (guarded_plain _ G N) as P.
    destruct (cell_text v) as [|c s]; [reflexivity|].
    apply plain_cons in P as (H1 & H2 & H3 & H4 & P).
    change (String c s ++ rest) with (String c (s ++ rest)).
    rewrite decode_ordinary by (assumption || destruct F as [-> | ->]; discriminate).
    now rewrite unquoted_run.
Qed.

Lemma cell_comma (v : value) (st : pstate) (row : list string) (r : string) :
  cr_guarded (cell_text v) = true -> fresh st ->
  decode st "" row (csvCell v ++ String COMMA r) =
  decode FieldStart "" (row ++ [cell_text v])%list r.
Proof.
  intros G F. rewrite cell_then by assumption.
  destruct (needsQuotes (cell_text v)); [|destruct (cell_text v)];
    apply decode_comma; try discriminate.
  destruct F as [-> | ->]; discriminate.
Qed.

Lemma cell_lf (v : value) (st : pstate) (row : list string) (r : string) :
  cr_guarded (cell_text v) = true -> fresh st ->
  decode st "" row (csvCell v ++ String LF r) =
  (row ++ [cell_text v])%list :: decode RecordStart "" [] r.
Proof.
  intros G F. rewrite cell_then by assumption.
  destruct (needsQuotes (cell_text v)); [|destruct (cell_text v)];
    apply decode_lf; try discriminate; destruct F as [-> | ->]; discriminate.
Qed.

Lemma cell_eof (v : value) (st : pstate) (row : list string) :
  cr_guarded (cell_text v) = true -> fresh st ->
  (st = RecordStart -> cell_text v <> "") ->
  decode st "" row (csvCell v) = [(row ++ [cell_text v])%list].
Proof.
  intros G F E. rewrite <- (append_nil_r (csvCell v)).
  rewrite cell_then by assumption.
  destruct (needsQuotes (cell_text v)); [reflexivity|].
  destruct (cell_text v); [|reflexivity].
  destruct F as [-> | ->]; [|reflexivity]. now contradiction E.
Qed.

(** *** Lines *)

Lemma csv_line_cons (v v' : value) (vs : list value) :
  csv_line (v :: v' :: vs) = csvCell v ++ String COMMA (csv_line (v' :: vs)).
Proof. reflexivity. Qed.

Lemma line_lf (vs : list value) :
  vs <> [] -> guarded_cells vs ->
  forall st row r, fresh st ->
    decode st "" row (csv_line vs ++ String LF r) =
    (row ++ map cell_text vs)%list :: decode RecordStart "" [] r.
Proof.
  induction vs as [|v vs IH]; [congruence|]. intros _ G st row r F.
  inversion G as [|? ? Gv Gvs]; subst.
  destruct vs as [|v' vs].
  - apply cell_lf; assumption.
  - rewrite csv_line_cons, append_assoc.
    change (String COMMA (csv_line (v' :: vs)) ++ String LF r)
      with (String COMMA (csv_line (v' :: vs) ++ String LF r)).
    rewrite cell_comma by assumption.
    rewrite IH by (try discriminate; try assumption; now right).
    now rewrite <- app_assoc.
Qed.

Lemma line_eof (vs : list value) :
  vs <> [] -> guarded_cells vs ->
  forall st row, fresh st ->
    (st = RecordStart -> map cell_text vs <> [""]) ->
    decode st "" row (csv_line vs) = [(row ++ map cell_text vs)%list].
Proof.
  induction vs as [|v vs IH]; [congruence|]. intros _ G st row F E.
  inversion G as [|? ? Gv Gvs]; subst.
  destruct vs as [|v' vs].
  - apply cell_eof; try assumption.
    intros Hst Ht. apply (E Hst). simpl. now rewrite Ht.
  - rewrite csv_line_cons, cell_comma by assumption.
    rewrite IH by (try discriminate; try assumption; now right).
    now rewrite <- app_assoc.
Qed.

(** *** Texts of several lines *)

Lemma records_decoded (recs : list (list value)) :
  recs <> [] ->
  Forall (fun vs => vs <> [] /\ guarded_cells vs) recs ->
  map cell_text (last recs []) <> [""] ->
  parseCSV (join (one LF) (map csv_line recs)) = map (map cell_text) recs.
Proof.
  unfold parseCSV.
  induction recs as [|vs recs IH]; [congruence|]. intros _ G L.
  inversion G as [|? ? [Hne Gvs] Grecs]; subst.
  destruct recs as [|vs' recs].
  - simpl. rewrite line_eof; try assumption; [reflexivity | now left | auto].
  - change (join (one LF) (map csv_line (vs :: vs' :: recs)))
      with (csv_line vs ++ String LF (join (one LF) (map csv_line (vs' :: recs)))).
    rewrite line_lf by (assumption || now left).
    rewrite IH by (assumption || discriminate). reflexivity.
Qed.

(** *** The header and the rows *)

Lemma plain_guarded (k : string) : plain k = true -> cr_guarded k = true.
Proof.
  unfold plain, cr_guarded. intro P. apply negb_true_iff in P.
  apply orb_false_elim in P as [_ P]. now rewrite P.
Qed.

Lemma plain_unquoted (k : string) : plain k = true -> csvCell (VStr k) = k.
Proof.
  unfold plain. intro P. apply negb_true_iff in P.
  apply orb_false_elim in P as [P _].
  rewrite csvCell_text. change (cell_text (VStr k)) with k.
  unfold needsQuotes. now rewrite P.
Qed.

Lemma header_line (ks : list string) :
  Forall (fun k => plain k = true) ks -> join "," ks = csv_line (map VStr ks).
Proof.
  unfold csv_line. intro P. f_equal.
  induction P as [|k ks Pk _ IH]; [reflexivity|].
  simpl. now rewrite plain_unquoted, <- IH.
Qed.

Lemma texts_of_strings (ks : list string) : map cell_text (map VStr ks) = ks.
Proof. induction ks as [|k ks IH]; [reflexivity|]. simpl. now rewrite IH. Qed.

Lemma last_map {A B} (f : A -> B) (l : list A) (a : A) :
  last (map f l) (f a) = f (last l a).
Proof.
  induction l as [|x l IH]; [reflexivity|].
  destruct l; [reflexivity|]. exact IH.
Qed.

Lemma last_cons_nonempty {A} (x : A) (l : list A) (d d' : A) :
  l <> [] -> last (x :: l) d = last l d'.
Proof.
  revert x. induction l as [|y l IH]; [congruence|]. intros x _.
  destruct l as [|z l]; [reflexivity|].
  change (last (x :: y :: z :: l) d) with (last (y :: z :: l) d).
  rewrite (IH y) by discriminate. symmetry.
  change (last (y :: z :: l) d') with (last (z :: l) d').
  destruct l; reflexivity.
Qed.




(** The side conditions are needed: a carriage return in a cell that is
    written without quotes is read as a line break, *)
Example carriage_return_unquoted :
  parseCSV (rowsToCSV [[("note", VStr ("a" ++ one CR ++ "b"))]]) =
  [["note"]; ["a"]; ["b"]].
Proof. reflexivity. Qed.

(** and header keys are written as they are, whatever they contain. *)
Example header_not_quoted :
  parseCSV (rowsToCSV [[("a,b", VStr "1")]]) = [["a"; "b"]; ["1"]] /\
  parseCSV (rowsToCSV [[("a" ++ one LF ++ "b", VStr "1")]]) = [["a"]; ["b"]; ["1"]].
Proof. split; reflexivity. Qed.

End CsvRoundTrip.

(** ** Page indices and sizes *)
Module LayoutFacts.

Import Layout FloatAxioms.
Local Open Scope Z_scope.

(** *** Binary64 on integers *)

Lemma iter_xO_value (p k : positive) :
  Zpos (Pos.iter xO p k) = Zpos p * 2 ^ Zpos k.
Proof.
  induction k as [|k IH] using Pos.peano_ind.
  - simpl. lia.
  - rewrite Pos.iter_succ, Pos2Z.inj_succ, Z.pow_succ_r by lia.
    rewrite Pos2Z.inj_xO, IH. lia.
Qed.

Lemma digits_bounds (p : positive) :
  2 ^ (Zpos (digits2_pos p) - 1) <= Zpos p < 2 ^ Zpos (digits2_pos p).
Proof.
  induction p as [p IH|p IH|]; simpl digits2_pos.
  - rewrite Pos2Z.inj_succ.
    replace (Z.succ (Zpos (digits2_pos p)) - 1) with (Z.succ (Zpos (digits2_pos p) - 1))
      by lia.
    rewrite !Z.pow_succ_r by lia. lia.
  - rewrite Pos2Z.inj_succ.
    replace (Z.succ (Zpos (digits2_pos p)) - 1) with (Z.succ (Zpos (digits2_pos p) - 1))
      by lia.
    rewrite !Z.pow_succ_r by lia. lia.
  - simpl. lia.
Qed.

Lemma digits_unique (p : positive) (d : Z) :
  2 ^ (d - 1) <= Zpos p < 2 ^ d -> Zpos (digits2_pos p) = d.
Proof.
  intros [L U]. pose proof (digits_bounds p) as [L' U'].
  assert (0 < d).
  { destruct (Z.lt_trichotomy d 0) as [H|[H|H]]; [|subst; simpl in *; lia|lia].
    rewrite Z.pow_neg_r in U by lia. lia. }
  destruct (Z.lt_trichotomy (Zpos (digits2_pos p)) d) as [H1|[H1|H1]]; [|exact H1|].
  - assert (2 ^ Zpos (digits2_pos p) <= 2 ^ (d - 1)) by (apply Z.pow_le_mono_r; lia).
    lia.
  - assert (2 ^ d <= 2 ^ (Zpos (digits2_pos p) - 1)) by (apply Z.pow_le_mono_r; lia).
    lia.
Qed.

Lemma digits_scaled (p q : positive) (k : Z) :
  0 <= k -> Zpos q = Zpos p * 2 ^ k ->
  Zpos (digits2_pos q) = Zpos (digits2_pos p) + k.
Proof.
  intros Hk E. apply digits_unique.
  pose proof (digits_bounds p) as [L U].
  replace (Zpos (digits2_pos p) + k - 1) with (Zpos (digits2_pos p) - 1 + k) by lia.
  rewrite !Z.pow_add_r by lia. rewrite E.
  assert (0 < 2 ^ k) by (apply Z.pow_pos_nonneg; lia).
  split; [apply Z.mul_le_mono_nonneg_r; lia | apply Z.mul_lt_mono_pos_r; lia].
Qed.

Lemma iter_pos_nat {A} (f : A -> A) (n : positive) (x : A) :
  iter_pos f n x = Nat.iter (Pos.to_nat n) f x.
Proof.
  revert x. induction n as [n IH|n IH|]; intro x; simpl iter_pos.
  - rewrite !IH, Pos2Nat.inj_xI. simpl.
    rewrite <- Nat.iter_add. rewrite Nat.add_0_r.
    now rewrite <- Nat.iter_succ_r.
  - rewrite !IH, Pos2Nat.inj_xO. simpl.
    rewrite <- Nat.iter_add. now rewrite Nat.add_0_r.
  - reflexivity.
Qed.

Lemma shr_nat_exact (k : nat) (q : positive) :
  Nat.iter k shr_1 {| shr_m := Zpos (Nat.iter k xO q); shr_r := false; shr_s := false |} =
  {| shr_m := Zpos q; shr_r := false; shr_s := false |}.
Proof.
  induction k as [|k IH]; [reflexivity|].
  rewrite Nat.iter_succ_r. simpl. exact IH.
Qed.

Lemma shr_exact (k q m : positive) :
  Zpos m = Zpos q * 2 ^ Zpos k ->
  iter_pos shr_1 k {| shr_m := Zpos m; shr_r := false; shr_s := false |} =
  {| shr_m := Zpos q; shr_r := false; shr_s := false |}.
Proof.
  intro E. rewrite <- iter_xO_value in E. injection E as ->.
  rewrite iter_pos_nat, Pos2Nat.inj_iter. apply shr_nat_exact.
Qed.

Lemma fexp_safe (x : Z) : -1021 <= x -> fexp prec emax x = x - 53.
Proof. intro H. unfold fexp, SpecFloat.emin, prec, emax. lia. Qed.

Lemma shr_fexp_canonical (q : positive) (g : Z) :
  Zpos (digits2_pos q) = 53 -> -1074 <= g ->
  shr_fexp prec emax (Zpos q) g loc_Exact =
  ({| shr_m := Zpos q; shr_r := false; shr_s := false |}, g).
Proof.
  intros D G. unfold shr_fexp. simpl Zdigits2. rewrite D, fexp_safe by lia.
  replace (53 + g - 53 - g) with 0 by lia. reflexivity.
Qed.

Lemma round_aux_exact (s : bool) (m : positive) (e : Z) (q : positive) (g : Z) :
  shr_fexp prec emax (Zpos m) e loc_Exact =
    ({| shr_m := Zpos q; shr_r := false; shr_s := false |}, g) ->
  Zpos (digits2_pos q) = 53 -> -1074 <= g <= 971 ->
  binary_round_aux prec emax s (Zpos m) e loc_Exact = S754_finite s q g.
Proof.
  intros H D G. unfold binary_round_aux. rewrite H.
  cbn [shr_m loc_of_shr_record round_nearest_even].
  rewrite shr_fexp_canonical by (assumption || lia).
  cbn [shr_m]. unfold emax, prec.
  destruct (Z.leb_spec g (1024 - 53)); [reflexivity | lia].
Qed.

Lemma binary_round_safe (s : bool) (m n : positive) (e : Z) :
  e <= 0 -> Zpos m = Zpos n * 2 ^ (- e) -> Zpos n < 2 ^ 53 ->
  binary_round prec emax s m e =
  S754_finite s (Z.to_pos (Zpos n * 2 ^ (53 - Zpos (digits2_pos n))))
    (Zpos (digits2_pos n) - 53).
Proof.
  intros He Hm Hn.
  pose proof (digits_bounds n) as [L U].
  set (d := Zpos (digits2_pos n)) in *.
  assert (Hd : 1 <= d <= 53).
  { split; [unfold d; lia|].
    destruct (Z.le_gt_cases d 53) as [H|H]; [exact H|].
    assert (2 ^ 53 <= 2 ^ (d - 1)) by (apply Z.pow_le_mono_r; lia). lia. }
  assert (Hpos : 0 < Zpos n * 2 ^ (53 - d)).
  { apply Z.mul_pos_pos; [lia | apply Z.pow_pos_nonneg; lia]. }
  set (q := Z.to_pos (Zpos n * 2 ^ (53 - d))).
  assert (Hq : Zpos q = Zpos n * 2 ^ (53 - d)) by (unfold q; now rewrite Z2Pos.id).
  assert (Dq : Zpos (digits2_pos q) = 53).
  { rewrite (digits_scaled n q (53 - d)) by (lia || assumption). fold d. lia. }
  assert (Dm : Zpos (digits2_pos m) = d - e).
  { rewrite (digits_scaled n m (- e)) by (lia || assumption). fold d. lia. }
  unfold binary_round. rewrite Dm, fexp_safe by lia.
  replace (d - e + e - 53) with (d - 53) by lia.
  unfold shl_align.
  destruct (d - 53 - e) as [|k|k] eqn:K.
  - apply round_aux_exact; [|assumption|lia].
    assert (m = q) as ->.
    { apply Pos2Z.inj. rewrite Hq, Hm. f_equal. f_equal. lia. }
    replace e with (d - 53) by lia. apply shr_fexp_canonical; [assumption|lia].
  - apply round_aux_exact; [|assumption|lia].
    unfold shr_fexp. simpl Zdigits2. rewrite Dm, fexp_safe by lia.
    replace (d - e + e - 53 - e) with (Zpos k) by lia.
    unfold shr. cbn [shr_record_of_loc]. rewrite (shr_exact k q m).
    + f_equal. lia.
    + rewrite Hq, Hm, <- Z.mul_assoc, <- Z.pow_add_r by lia. f_equal. f_equal. lia.
  - assert (Pos.iter xO m k = q) as ->.
    { apply Pos2Z.inj. rewrite iter_xO_value, Hq, Hm, <- Z.mul_assoc, <- Z.pow_add_r by lia.
      f_equal. f_equal. lia. }
    apply round_aux_exact; [|assumption|lia].
    apply shr_fexp_canonical; [assumption|lia].
Qed.

(** The binary64 of a safe integer that is not zero: sign, a mantissa
    of 53 bits and an exponent from -52 to 0. *)
Lemma binary64_safe (z : Z) :
  z <> 0 -> Z.abs z < 2 ^ 53 ->
  exists q g,
    binary_normalize prec emax z 0 false = S754_finite (z <? 0) q g /\
    Zpos q = Z.abs z * 2 ^ (- g) /\ -52 <= g <= 0 /\
    Zpos (digits2_pos q) = 53.
Proof.
  intros Hz Hb.
  assert (G : forall s n, Zpos n < 2 ^ 53 ->
              exists q g, binary_round prec emax s n 0 = S754_finite s q g /\
                          Zpos q = Zpos n * 2 ^ (- g) /\ -52 <= g <= 0 /\
                          Zpos (digits2_pos q) = 53).
  { intros s n Hn.
    pose proof (digits_bounds n) as [L U].
    assert (Hd : 1 <= Zpos (digits2_pos n) <= 53).
    { split; [lia|].
      destruct (Z.le_gt_cases (Zpos (digits2_pos n)) 53) as [H|H]; [exact H|].
      assert (2 ^ 53 <= 2 ^ (Zpos (digits2_pos n) - 1))
        by (apply Z.pow_le_mono_r; lia). lia. }
    assert (Hpos : 0 < Zpos n * 2 ^ (53 - Zpos (digits2_pos n))).
    { apply Z.mul_pos_pos; [lia | apply Z.pow_pos_nonneg; lia]. }
    eexists. eexists. split; [apply (binary_round_safe s n n 0); simpl; lia|].
    rewrite Z2Pos.id by exact Hpos.
    replace (- (Zpos (digits2_pos n) - 53)) with (53 - Zpos (digits2_pos n)) by lia.
    split; [reflexivity|]. split; [lia|].
    rewrite (digits_scaled n _ (53 - Zpos (digits2_pos n))).
    - lia.
    - lia.
    - now rewrite Z2Pos.id. }
  destruct z as [|n|n]; [contradiction| |].
  - exact (G false n Hb).
  - exact (G true n Hb).
Qed.

Lemma binary64_safe_valid (z : Z) :
  Z.abs z < 2 ^ 53 -> valid_binary (binary_normalize prec emax z 0 false) = true.
Proof.
  intro Hb. destruct (Z.eq_dec z 0) as [->|Hz]; [reflexivity|].
  destruct (binary64_safe z Hz Hb) as (q & g & -> & _ & G & D).
  unfold SpecFloat.valid_binary, bounded, canonical_mantissa.
  rewrite D, fexp_safe by lia.
  apply andb_true_intro. split; [apply Z.eqb_eq; lia | apply Z.leb_le].
  unfold emax, prec. lia.
Qed.

Lemma Prim2SF_of_Z (z : Z) :
  Z.abs z < 2 ^ 53 -> Prim2SF (Num.of_Z z) = binary_normalize prec emax z 0 false.
Proof. intro Hb. apply Prim2SF_SF2Prim, binary64_safe_valid, Hb. Qed.

(** Rounding is exact on a safe integer, however it is written. *)
Lemma normalize_safe (M e z : Z) :
  e <= 0 -> M = z * 2 ^ (- e) -> Z.abs z < 2 ^ 53 ->
  binary_normalize prec emax M e false = binary_normalize prec emax z 0 false.
Proof.
  intros He HM Hb.
  assert (P : 0 < 2 ^ (- e)) by (apply Z.pow_pos_nonneg; lia).
  destruct z as [|n|n].
  - subst M. reflexivity.
  - destruct M as [|m|m]; try (exfalso; nia).
    unfold binary_normalize.
    rewrite (binary_round_safe false m n e He HM Hb).
    rewrite (binary_round_safe false n n 0); [reflexivity|lia|simpl; lia|exact Hb].
  - destruct M as [|m|m]; try (exfalso; nia).
    unfold binary_normalize.
    assert (HM' : Zpos m = Zpos n * 2 ^ (- e)) by lia.
    rewrite (binary_round_safe true m n e He HM' Hb).
    rewrite (binary_round_safe true n n 0); [reflexivity|lia|simpl; lia|exact Hb].
Qed.

Lemma shl_align_value (q : positive) (g e : Z) :
  e <= g -> Zpos (fst (shl_align q g e)) = Zpos q * 2 ^ (g - e).
Proof.
  intro H. unfold shl_align. destruct (e - g) as [|k|k] eqn:K.
  - replace (g - e) with 0 by lia. simpl. lia.
  - lia.
  - simpl fst. rewrite iter_xO_value. f_equal. f_equal. lia.
Qed.

Lemma signed_abs (z : Z) : cond_Zopp (z <? 0) (Z.abs z) = z.
Proof. destruct z; reflexivity. Qed.

Lemma cond_Zopp_mul (s : bool) (a b : Z) : cond_Zopp s (a * b) = cond_Zopp s a * b.
Proof. destruct s; simpl; lia. Qed.

(** The mantissa of a safe integer, aligned to a smaller exponent. *)
Lemma aligned_value (z : Z) (q : positive) (g e : Z) :
  Zpos q = Z.abs z * 2 ^ (- g) -> g <= 0 -> e <= g ->
  cond_Zopp (z <? 0) (Zpos (fst (shl_align q g e))) = z * 2 ^ (- e).
Proof.
  intros Hq Hg He. rewrite shl_align_value, Hq by exact He.
  rewrite <- Z.mul_assoc, <- Z.pow_add_r by lia.
  replace (- g + (g - e)) with (- e) by lia.
  now rewrite cond_Zopp_mul, signed_abs.
Qed.

Lemma add_safe (a b : Z) :
  Z.abs a < 2 ^ 53 -> Z.abs b < 2 ^ 53 -> Z.abs (a + b) < 2 ^ 53 ->
  (Num.of_Z a + Num.of_Z b)%float = Num.of_Z (a + b).
Proof.
  intros Ha Hb Hab. apply Prim2SF_inj.
  rewrite add_spec, !Prim2SF_of_Z by assumption. unfold SF64add.
  destruct (Z.eq_dec a 0) as [->|Na].
  { destruct (Z.eq_dec b 0) as [->|Nb]; [reflexivity|].
    destruct (binary64_safe b Nb Hb) as (q & g & E & _). simpl (0 + b).
    rewrite E. reflexivity. }
  destruct (Z.eq_dec b 0) as [->|Nb].
  { destruct (binary64_safe a Na Ha) as (q & g & E & _). rewrite Z.add_0_r.
    rewrite E. reflexivity. }
  destruct (binary64_safe a Na Ha) as (qa & ga & Ea & Qa & Ga & _).
  destruct (binary64_safe b Nb Hb) as (qb & gb & Eb & Qb & Gb & _).
  rewrite Ea, Eb. unfold SFadd.
  apply normalize_safe; [lia| |exact Hab].
  rewrite (aligned_value a), (aligned_value b) by (assumption || lia). lia.
Qed.

Lemma sub_safe (a b : Z) :
  Z.abs a < 2 ^ 53 -> Z.abs b < 2 ^ 53 -> Z.abs (a - b) < 2 ^ 53 ->
  (Num.of_Z a - Num.of_Z b)%float = Num.of_Z (a - b).
Proof.
  intros Ha Hb Hab. apply Prim2SF_inj.
  rewrite sub_spec, !Prim2SF_of_Z by assumption. unfold SF64sub.
  destruct (Z.eq_dec b 0) as [->|Nb].
  { rewrite Z.sub_0_r. destruct (Z.eq_dec a 0) as [->|Na]; [reflexivity|].
    destruct (binary64_safe a Na Ha) as (q & g & E & _). rewrite E. reflexivity. }
  destruct (binary64_safe b Nb Hb) as (qb & gb & Eb & Qb & Gb & _).
  destruct (Z.eq_dec a 0) as [->|Na].
  { clear Eb Qb. destruct b as [|n|n]; [contradiction| |];
      unfold binary_normalize; simpl (0 - _); cbv iota;
      rewrite (binary_round_safe false n n 0), (binary_round_safe true n n 0)
        by (simpl; lia); reflexivity. }
  destruct (binary64_safe a Na Ha) as (qa & ga & Ea & Qa & Ga & _).
  rewrite Ea, Eb. unfold SFsub.
  apply normalize_safe; [lia| |exact Hab].
  rewrite (aligned_value a), (aligned_value b) by (assumption || lia). lia.
Qed.

Lemma leb_zero_safe (t : Z) :
  Z.abs t < 2 ^ 53 -> (Num.of_Z t <=? zero)%float = (t <=? 0).
Proof.
  intro Ht. rewrite leb_spec, Prim2SF_of_Z by assumption.
  destruct (Z.eq_dec t 0) as [->|Nt]; [reflexivity|].
  destruct (binary64_safe t Nt Ht) as (q & g & -> & _).
  destruct t as [|n|n]; [contradiction| |]; reflexivity.
Qed.

Lemma rem_signed (a t : Z) :
  Z.rem a t = cond_Zopp (a <? 0) (Z.rem (Z.abs a) (Z.abs t)).
Proof.
  destruct a as [|n|n], t as [|m|m]; try reflexivity.
  - simpl Z.abs. simpl (_ <? _). simpl cond_Zopp.
    change (Zneg m) with (- Zpos m). now rewrite Z.rem_opp_r'.
  - simpl Z.abs. simpl (_ <? _). simpl cond_Zopp.
    change (Zneg n) with (- Zpos n). now rewrite Z.rem_opp_l'.
  - simpl Z.abs. simpl (_ <? _). simpl cond_Zopp.
    change (Zneg n) with (- Zpos n). change (Zneg m) with (- Zpos m).
    now rewrite Z.rem_opp_l', Z.rem_opp_r'.
Qed.

(** [%] on safe integers is the remainder of the truncating division,
    with the sign of the dividend also on a zero. *)
Lemma rem_safe (a t : Z) :
  t <> 0 -> Z.abs a < 2 ^ 53 -> Z.abs t < 2 ^ 53 ->
  Number_remainder (Num.of_Z a) (Num.of_Z t) =
  if (Z.rem a t =? 0) && (a <? 0) then neg_zero else Num.of_Z (Z.rem a t).
Proof.
  intros Nt Ha Ht. unfold Number_remainder.
  rewrite !Prim2SF_of_Z by assumption.
  destruct (binary64_safe t Nt Ht) as (qt & gt & Et & Qt & Gt & _).
  destruct (Z.eq_dec a 0) as [->|Na].
  { rewrite Et. reflexivity. }
  destruct (binary64_safe a Na Ha) as (qa & ga & Ea & Qa & Ga & _).
  rewrite Ea, Et. cbv zeta.
  set (e := Z.min ga gt).
  assert (P : 0 < 2 ^ (- e)) by (apply Z.pow_pos_nonneg; lia).
  assert (X : Zpos qa * 2 ^ (ga - e) = Z.abs a * 2 ^ (- e)).
  { rewrite Qa, <- Z.mul_assoc, <- Z.pow_add_r by lia. f_equal. f_equal. lia. }
  assert (Y : Zpos qt * 2 ^ (gt - e) = Z.abs t * 2 ^ (- e)).
  { rewrite Qt, <- Z.mul_assoc, <- Z.pow_add_r by lia. f_equal. f_equal. lia. }
  rewrite X, Y, Z.mul_rem_distr_r by lia.
  pose proof (rem_signed a t) as S.
  assert (B : Z.abs (Z.rem a t) < 2 ^ 53).
  { pose proof (Z.rem_bound_abs a t Nt). pose proof (Z.abs_nonneg (Z.rem a t)). lia. }
  destruct (Z.eqb_spec (Z.rem (Z.abs a) (Z.abs t) * 2 ^ (- e)) 0) as [R0|R0].
  - assert (R : Z.rem (Z.abs a) (Z.abs t) = 0) by nia.
    rewrite R in S. assert (S' : Z.rem a t = 0) by (destruct (a <? 0); exact S).
    rewrite S'. simpl (0 =? 0). cbv iota. simpl andb.
    now destruct (a <? 0).
  - assert (R : Z.rem a t <> 0).
    { intro K. rewrite K in S. apply R0.
      destruct (a <? 0); simpl in S; lia. }
    apply Z.eqb_neq in R. rewrite R. simpl andb. cbv iota.
    unfold Num.of_Z. f_equal.
    apply normalize_safe; [lia| |exact B].
    now rewrite cond_Zopp_mul, <- S.
Qed.

Lemma one_integer : one = Num.of_Z 1.
Proof. vm_compute. reflexivity. Qed.

Lemma next_safe (total current : Z) :
  0 < total -> Z.abs total < 2 ^ 53 -> Z.abs current < 2 ^ 53 ->
  Z.abs (current + 1) < 2 ^ 53 ->
  computeNextIndex (Num.of_Z total) (Num.of_Z current) =
  if (Z.rem (current + 1) total =? 0) && (current + 1 <? 0) then neg_zero
  else Num.of_Z (Z.rem (current + 1) total).
Proof.
  intros Ht Bt Bc Bn. unfold computeNextIndex.
  rewrite leb_zero_safe by exact Bt.
  destruct (Z.leb_spec total 0); [lia|].
  rewrite one_integer, add_safe by (assumption || simpl; lia).
  apply rem_safe; [lia | assumption | assumption].
Qed.

Lemma prev_safe (total current : Z) :
  0 < total -> Z.abs total < 2 ^ 53 -> Z.abs current < 2 ^ 53 ->
  Z.abs (current - 1) < 2 ^ 53 -> Z.abs (current - 1 + total) < 2 ^ 53 ->
  computePrevIndex (Num.of_Z total) (Num.of_Z current) =
  if (Z.rem (current - 1 + total) total =? 0) && (current - 1 + total <? 0) then neg_zero
  else Num.of_Z (Z.rem (current - 1 + total) total).
Proof.
  intros Ht Bt Bc Bm Bs. unfold computePrevIndex.
  rewrite leb_zero_safe by exact Bt.
  destruct (Z.leb_spec total 0); [lia|].
  rewrite one_integer, sub_safe, add_safe by (assumption || simpl; lia).
  apply rem_safe; [lia | assumption | assumption].
Qed.

Lemma next_in_book (total current : Z) :
  0 <= current < total -> total <= 2 ^ 52 ->
  computeNextIndex (Num.of_Z total) (Num.of_Z current) =
  Num.of_Z (if current =? total - 1 then 0 else current + 1).
Proof.
  intros H B. rewrite next_safe by lia.
  destruct (Z.ltb_spec (current + 1) 0); [lia|]. rewrite andb_false_r.
  f_equal. destruct (Z.eqb_spec current (total - 1)) as [->|Hne].
  - replace (total - 1 + 1) with total by lia. apply Z.rem_same. lia.
  - apply Z.rem_small. lia.
Qed.

Lemma prev_in_book (total current : Z) :
  0 <= current < total -> total <= 2 ^ 52 ->
  computePrevIndex (Num.of_Z total) (Num.of_Z current) =
  Num.of_Z (if current =? 0 then total - 1 else current - 1).
Proof.
  intros H B. rewrite prev_safe by lia.
  destruct (Z.ltb_spec (current - 1 + total) 0); [lia|]. rewrite andb_false_r.
  f_equal. destruct (Z.eqb_spec current 0) as [->|Hne].
  - replace (0 - 1 + total) with (total - 1) by lia. apply Z.rem_small. lia.
  - rewrite Z.rem_mod_nonneg by lia.
    replace (current - 1 + total) with (current - 1 + 1 * total) by lia.
    rewrite Z.mod_add by lia. apply Z.mod_small. lia.
Qed.

(** X1: on the indices of a book of [total] pages, for a whole number
    of pages up to 2^52, [computeNextIndex] and [computePrevIndex] stay
    within the book, wrap around at its two ends, and undo each
    other. *)
Theorem index_cycle (total current : Z) :
  0 <= current < total -> total <= 2 ^ 52 ->
  let t := Num.of_Z total in
  let c := Num.of_Z current in
  (exists n, computeNextIndex t c = Num.of_Z n /\ 0 <= n < total) /\
  (exists p, computePrevIndex t c = Num.of_Z p /\ 0 <= p < total) /\
  computeNextIndex t c = Num.of_Z (if current =? total - 1 then 0 else current + 1) /\
  computePrevIndex t c = Num.of_Z (if current =? 0 then total - 1 else current - 1) /\
  computePrevIndex t (computeNextIndex t c) = c /\
  computeNextIndex t (computePrevIndex t c) = c.
Proof.
  intros H B t c. subst t c.
  rewrite (next_in_book total current H B), (prev_in_book total current H B).
  split; [|split; [|split; [|split; [|split]]]]; try reflexivity.
  - eexists. split; [reflexivity|].
    destruct (Z.eqb_spec current (total - 1)); lia.
  - eexists. split; [reflexivity|].
    destruct (Z.eqb_spec current 0); lia.
  - rewrite prev_in_book by (destruct (Z.eqb_spec current (total - 1)); lia).
    f_equal. destruct (Z.eqb_spec current (total - 1)).
    + rewrite Z.eqb_refl. lia.
    + destruct (Z.eqb_spec (current + 1) 0); lia.
  - rewrite next_in_book by (destruct (Z.eqb_spec current 0); lia).
    f_equal. destruct (Z.eqb_spec current 0).
    + rewrite Z.eqb_refl. lia.
    + destruct (Z.eqb_spec (current - 1) (total - 1)); lia.
Qed.

Lemma index_cycle_witness :
  computePrevIndex (Num.of_Z 4) (computeNextIndex (Num.of_Z 4) (Num.of_Z 3)) = Num.of_Z 3 /\
  computeNextIndex (Num.of_Z 4) (Num.of_Z 3) = Num.of_Z 0.
Proof.
  pose proof (index_cycle 4 3 ltac:(lia) ltac:(lia)) as (_ & _ & Hn & _ & Hpn & _).
  split; [exact Hpn | exact Hn].
Defined.

Lemma nan_total (total x : float) :
  is_nan total = true -> Number_remainder x total = nan.
Proof.
  intro H. unfold Number_remainder.
  assert (E : Prim2SF total = S754_nan) by (unfold Prim2SF; now rewrite H).
  rewrite E. now destruct (Prim2SF x).
Qed.

Lemma nan_not_below (total : float) :
  is_nan total = true -> (total <=? zero)%float = false.
Proof.
  intro H. rewrite leb_spec.
  assert (E : Prim2SF total = S754_nan) by (unfold Prim2SF; now rewrite H).
  rewrite E. reflexivity.
Qed.

(** X2: outside the book.  A total that is zero or negative gives index
    0 and a total that is [NaN] gives [NaN], whatever the current index.
    For whole numbers up to 2^52 in size and a positive total, both
    results are the truncating remainder, which lies strictly between
    [-total] and [total] and is negative exactly when the dividend is
    negative and no multiple of [total]; a negative multiple gives the
    negative zero.  From 2^53 on the sums are rounded: there the next
    index of an even index can be the index itself. *)
Theorem index_edges (total current : float) (t c : Z) :
  ((total <=? zero)%float = true ->
   computeNextIndex total current = zero /\ computePrevIndex total current = zero) /\
  (is_nan total = true ->
   computeNextIndex total current = nan /\ computePrevIndex total current = nan) /\
  (0 < t <= 2 ^ 52 -> Z.abs c <= 2 ^ 52 ->
   computeNextIndex (Num.of_Z t) (Num.of_Z c) =
     (if (Z.rem (c + 1) t =? 0) && (c + 1 <? 0) then neg_zero
      else Num.of_Z (Z.rem (c + 1) t)) /\
   computePrevIndex (Num.of_Z t) (Num.of_Z c) =
     (if (Z.rem (c - 1 + t) t =? 0) && (c - 1 + t <? 0) then neg_zero
      else Num.of_Z (Z.rem (c - 1 + t) t)) /\
   - t < Z.rem (c + 1) t < t /\ - t < Z.rem (c - 1 + t) t < t /\
   (Z.rem (c + 1) t < 0 <-> c + 1 < 0 /\ (c + 1) mod t <> 0)) /\
  computeNextIndex (Num.of_Z (2 ^ 53 + 2)) (Num.of_Z (2 ^ 53)) = Num.of_Z (2 ^ 53) /\
  computeNextIndex (Num.of_Z 3) (Num.of_Z (- (2 ^ 53 + 2))) = Num.of_Z (- 2).
Proof.
  split; [|split; [|split; [|split]]].
  - intro H. unfold computeNextIndex, computePrevIndex. rewrite H. auto.
  - intro H. unfold computeNextIndex, computePrevIndex.
    rewrite (nan_not_below total H), !(nan_total total _ H). auto.
  - intros H Bc.
    split; [apply next_safe; lia|]. split; [apply prev_safe; lia|].
    pose proof (Z.rem_bound_abs (c + 1) t ltac:(lia)) as B1.
    pose proof (Z.rem_bound_abs (c - 1 + t) t ltac:(lia)) as B2.
    split; [lia|]. split; [lia|].
    destruct H as [H _].
    destruct (Z.lt_ge_cases (c + 1) 0) as [Hneg|Hpos].
    + assert (E : Z.rem (c + 1) t = - ((- (c + 1)) mod t)).
      { replace (c + 1) with (- - (c + 1)) at 1 by lia.
        rewrite Z.rem_opp_l by lia. now rewrite Z.rem_mod_nonneg by lia. }
      assert (D : (- (c + 1)) mod t = 0 <-> (c + 1) mod t = 0).
      { rewrite !Z.mod_divide by lia. apply Z.divide_opp_r. }
      pose proof (Z.mod_pos_bound (- (c + 1)) t H).
      rewrite E. split.
      * intro L. split; [assumption|]. intro M. apply D in M. lia.
      * intros [_ M]. assert ((- (c + 1)) mod t <> 0) by (rewrite D; exact M).
        lia.
    + pose proof (Z.rem_bound_pos (c + 1) t Hpos H). lia.
  - vm_compute. reflexivity.
  - vm_compute. reflexivity.
Qed.

Lemma index_edges_witness :
  computeNextIndex (Num.of_Z 0) (Num.of_Z 7) = zero /\
  computeNextIndex (Num.of_Z 3) (Num.of_Z (-5)) = Num.of_Z (-1) /\
  computeNextIndex (Num.of_Z 3) (Num.of_Z (-4)) = neg_zero.
Proof.
  split; [|split].
  - apply (proj1 (index_edges (Num.of_Z 0) (Num.of_Z 7) 1 0)). reflexivity.
  - apply (proj1 (proj1 (proj2 (proj2 (index_edges zero zero 3 (-5))))
                    ltac:(lia) ltac:(simpl; lia))).
  - apply (proj1 (proj1 (proj2 (proj2 (index_edges zero zero 3 (-4))))
                    ltac:(lia) ltac:(simpl; lia))).
Defined.

(** X3: [getBookDimensions] always leaves forty pixels of the window
    free, never makes the book wider than 900, makes it 620 or 650 high,
    gives a positive width as soon as the window is wider than forty
    pixels, and never gives a wider window a narrower book. *)
Theorem book_fits_window (w w' : Z) :
  fst (getBookDimensions (Some w)) <= w - 40 /\
  fst (getBookDimensions (Some w)) <= 900 /\
  (snd (getBookDimensions (Some w)) = 620 \/ snd (getBookDimensions (Some w)) = 650) /\
  (0 < fst (getBookDimensions (Some w)) <-> 40 < w) /\
  (w <= w' -> fst (getBookDimensions (Some w)) <= fst (getBookDimensions (Some w'))).
Proof.
  unfold getBookDimensions.
  destruct (Z.ltb_spec w 640), (Z.ltb_spec w 768), (Z.ltb_spec w 1024),
    (Z.ltb_spec w' 640), (Z.ltb_spec w' 768), (Z.ltb_spec w' 1024);
    simpl; repeat split; try lia; auto.
Qed.

Lemma book_fits_window_witness :
  fst (getBookDimensions (Some 360)) <= fst (getBookDimensions (Some 800)).
Proof. apply (proj2 (proj2 (proj2 (proj2 (book_fits_window 360 800))))). lia. Defined.

Lemma measured_heights :
  map (fun w => Math_round (Num.of_Z w * ASPECT)%float) widths =
  map (fun w => Num.of_Z (aspect_height w)) widths.
Proof. vm_compute. reflexivity. Qed.

Lemma in_widths (w : Z) : MIN_W <= w <= MAX_W -> In w widths.
Proof.
  intro H. unfold widths. apply in_map_iff.
  exists (Z.to_nat (w - MIN_W)). split.
  - rewrite Z2Nat.id; lia.
  - apply in_seq. unfold MIN_W, MAX_W in *. lia.
Qed.

Lemma map_eq_pointwise {A B} (f g : A -> B) (l : list A) :
  map f l = map g l -> forall x, In x l -> f x = g x.
Proof.
  induction l as [|a l IH]; simpl; intros E x Hx; [contradiction|].
  injection E as E1 E2. destruct Hx as [<-|Hx]; auto.
Qed.

(** X4: [measure] keeps the width between 320 and 1200 (900 when the
    container is missing or has no width), and the height it computes in
    floating point is the integer nearest to [width * 620 / 900], within
    half a pixel of the 900:620 aspect. *)
Theorem measure_keeps_aspect (clientWidth : option Z) :
  let w := fst (measure clientWidth) in
  MIN_W <= w <= MAX_W /\
  snd (measure clientWidth) = Num.of_Z (aspect_height w) /\
  - 450 <= 900 * aspect_height w - 620 * w <= 450 /\
  (clientWidth = None \/ clientWidth = Some 0 ->
   measure clientWidth = (900, Num.of_Z 620)).
Proof.
  intro w.
  assert (R : MIN_W <= w <= MAX_W).
  { subst w. unfold measure, MIN_W, MAX_W. simpl. lia. }
  split; [exact R|]. split; [|split].
  - change (snd (measure clientWidth))
      with ((fun x => Math_round (Num.of_Z x * ASPECT)%float) w).
    apply (map_eq_pointwise _ _ widths measured_heights).
    now apply in_widths.
  - unfold aspect_height, BASE_H, BASE_W.
    pose proof (Z.mul_div_le (620 * 2 * w + 900) (2 * 900) ltac:(lia)).
    pose proof (Z.mul_succ_div_gt (620 * 2 * w + 900) (2 * 900) ltac:(lia)).
    lia.
  - intros [-> | ->]; vm_compute; reflexivity.
Qed.

Lemma measure_keeps_aspect_witness : measure None = (900, Num.of_Z 620).
Proof. apply (proj2 (proj2 (proj2 (measure_keeps_aspect None)))). now left. Defined.

End LayoutFacts.

(** ** The gateway calls as a whole *)
Module GatewayFacts.

Import JS Gateway Reference Facts Calls.
Local Open Scope js_scope.

Section Deployment.

Variable url : option string.
Variable remote : list request -> request -> option response.

(** What [fetchRSVPsFromSheets] does to the world: nothing when the URL
    is not configured, one GET of the list URL otherwise. *)
Lemma fetchRSVPs_world (w : world) :
  snd (fetchRSVPsFromSheets url remote w) =
  if isSheetsConfigured url
  then {| net_log := net_log w ++ [GET (list_url url)]; clock_reads := clock_reads w;
          rsvps := rsvps w; loading := loading w |}
  else w.
Proof.
  unfold fetchRSVPsFromSheets, list_url.
  destruct (isSheetsConfigured url); [|reflexivity]. simpl.
  unfold bind, fetch, throw, json, ret, lift.
  destruct (remote _ _) as [res|]; simpl; [|reflexivity].
  destruct (res_ok res); simpl; [|reflexivity].
  destruct (res_json res) as [data|]; simpl; [|reflexivity].
  destruct data; reflexivity.
Qed.

(** The whole effect of [refreshRSVPs]. *)
Lemma refreshRSVPs_run (isAdmin : bool) (w : world) :
  let w' := snd (refreshRSVPs url remote isAdmin w) in
  fst (refreshRSVPs url remote isAdmin w) = Return tt /\
  clock_reads w' = clock_reads w /\
  net_log w' = (if isAdmin && isSheetsConfigured url
                then net_log w ++ [GET (list_url url)] else net_log w)%list /\
  (isAdmin = true -> loading w' = false) /\
  (isAdmin = false -> w' = w).
Proof.
  destruct isAdmin; [|repeat split; try reflexivity; discriminate].
  unfold refreshRSVPs, bind, try_finally, try_catch, lift. simpl.
  pose proof (fetchRSVPs_world
                {| net_log := net_log w; clock_reads := clock_reads w;
                   rsvps := rsvps w; loading := true |}) as W.
  destruct (fetchRSVPsFromSheets url remote _) as [[rows|e] w1]; simpl in *.
  - destruct (array_map normalizeRow rows); simpl; subst w1;
      destruct (isSheetsConfigured url); repeat split; try reflexivity; discriminate.
  - subst w1. destruct (isSheetsConfigured url); repeat split; try reflexivity;
      discriminate.
Qed.

(** What the GET revision of [addRSVPToSheets] does to the world when
    the URL is set: one reading of the clock and one request. *)
Lemma addRSVP_GET_world (now : nat -> string) (u : string) (entry : value) (w : world) :
  url = Some u -> u <> "" -> is_nullish entry = false ->
  let r := own_props entry in
  let text := fun k => ToString (first_truthy [lookup k r] (VStr "")) in
  let params :=
    [ ("action", "add"); ("name", text "name"); ("email", text "email");
      ("attending", text "attending");
      ("guests", if ToBoolean (lookup "guests" r)
                 then ToString (lookup "guests" r) else "0");
      ("message", text "message"); ("timestamp", now (clock_reads w)) ] in
  snd (addRSVPToSheets url remote now entry w) =
  {| net_log := net_log w ++ [GET (u ++ "?" ++ URLSearchParams_toString params)];
     clock_reads := S (clock_reads w); rsvps := rsvps w; loading := loading w |}.
Proof.
  intros -> Hu He r text params.
  unfold addRSVPToSheets. apply String.eqb_neq in Hu. rewrite Hu.
  unfold bind. rewrite Requests.add_params_eval, He. cbv beta iota zeta.
  unfold try_catch, bind, fetch, throw, json, ret. simpl.
  destruct (remote _ _) as [res|]; simpl; [|reflexivity].
  destruct (res_ok res); simpl; [|reflexivity].
  destruct (res_json res); reflexivity.
Qed.

(** X5: [refreshRSVPs] never throws, whatever the remote answers; it
    reads no clock, issues no request for a public visitor or an
    unconfigured URL and exactly one GET of the list URL otherwise, and
    an admin's refresh always ends with [loading] switched off. *)
Theorem refresh_never_throws (isAdmin : bool) (w : world) :
  let w' := snd (refreshRSVPs url remote isAdmin w) in
  fst (refreshRSVPs url remote isAdmin w) = Return tt /\
  clock_reads w' = clock_reads w /\
  net_log w' = (if isAdmin && isSheetsConfigured url
                then net_log w ++ [GET (list_url url)] else net_log w)%list /\
  (isAdmin = true -> loading w' = false) /\
  (isAdmin = false -> w' = w).
Proof. exact (refreshRSVPs_run isAdmin w). Qed.

End Deployment.

Lemma refresh_never_throws_witness :
  loading (snd (refreshRSVPs (Some "https://script.example/exec") sample_remote true
                  initial_world)) = false.
Proof.
  apply (proj1 (proj2 (proj2 (proj2
           (refresh_never_throws (Some "https://script.example/exec") sample_remote
              true initial_world))))).
  reflexivity.
Defined.

End GatewayFacts.
(** ** Query strings: what is written is what is read *)
Module UrlFacts.

Import JS Gateway Url Str StrFacts.

Ltac each_byte c :=
  destruct c as [[|] [|] [|] [|] [|] [|] [|] [|]].

(** A byte as [URLSearchParams] writes it is read back as that byte. *)
Lemma byte_round_trip (c : ascii) (r : string) :
  percent_decode (plus_to_space (urlencode_byte c ++ r)) =
  String c (percent_decode (plus_to_space r)).
Proof. each_byte c; reflexivity. Qed.

Lemma byte_no_separator (c : ascii) :
  has_char AMP (urlencode_byte c) = false /\
  has_char EQUALS (urlencode_byte c) = false.
Proof. each_byte c; split; reflexivity. Qed.

Lemma has_char_append (c : ascii) (a b : string) :
  has_char c (a ++ b) = has_char c a || has_char c b.
Proof.
  induction a as [|x a IH]; simpl; [reflexivity|].
  now rewrite IH, orb_assoc.
Qed.

Lemma urlencode_no_separator (s : string) :
  has_char AMP (urlencode s) = false /\ has_char EQUALS (urlencode s) = false.
Proof.
  induction s as [|c s [IH1 IH2]]; simpl; [auto|].
  rewrite !has_char_append, IH1, IH2.
  destruct (byte_no_separator c) as [-> ->]. auto.
Qed.

Lemma bytes_round_trip (s : string) :
  percent_decode (plus_to_space (urlencode s)) = s.
Proof.
  induction s as [|c s IH]; [reflexivity|].
  simpl urlencode. now rewrite byte_round_trip, IH.
Qed.

Lemma component_round_trip (s : string) :
  well_formed s -> decode_component (urlencode s) = s.
Proof. intro W. unfold decode_component. now rewrite bytes_round_trip. Qed.

Lemma split_whole (sep : ascii) (a : string) :
  has_char sep a = false -> split sep a = [a].
Proof.
  induction a as [|c a IH]; [reflexivity|].
  intro H. apply has_char_cons_false in H as [Hc Ha].
  simpl. apply Ascii.eqb_neq in Hc. rewrite Hc, IH by assumption. reflexivity.
Qed.

Lemma split_first (sep : ascii) (a b : string) :
  has_char sep a = false -> split sep (a ++ String sep b) = a :: split sep b.
Proof.
  induction a as [|c a IH]; intro H.
  - simpl. now rewrite Ascii.eqb_refl.
  - apply has_char_cons_false in H as [Hc Ha].
    simpl. apply Ascii.eqb_neq in Hc. rewrite Hc, IH by assumption. reflexivity.
Qed.

Lemma cut_first (sep : ascii) (a b : string) :
  has_char sep a = false -> cut sep (a ++ String sep b) = (a, Some b).
Proof.
  induction a as [|c a IH]; intro H.
  - simpl. now rewrite Ascii.eqb_refl.
  - apply has_char_cons_false in H as [Hc Ha].
    simpl. apply Ascii.eqb_neq in Hc. rewrite Hc, IH by assumption. reflexivity.
Qed.

(** A pair as it is written: name, equals sign, value. *)
Lemma pair_round_trip (k v : string) :
  well_formed k -> well_formed v ->
  parse_pair (urlencode k ++ "=" ++ urlencode v) = (k, v).
Proof.
  intros Wk Wv. unfold parse_pair.
  change (urlencode k ++ "=" ++ urlencode v)
    with (urlencode k ++ String EQUALS (urlencode v)).
  rewrite cut_first by apply urlencode_no_separator.
  now rewrite !component_round_trip.
Qed.

Lemma pair_text_shape (k v : string) :
  has_char AMP (urlencode k ++ "=" ++ urlencode v) = false /\
  urlencode k ++ "=" ++ urlencode v <> "".
Proof.
  split.
  - rewrite !has_char_append.
    destruct (urlencode_no_separator k) as [-> _].
    destruct (urlencode_no_separator v) as [-> _]. reflexivity.
  - destruct (urlencode k); discriminate.
Qed.

Lemma parse_pieces_cons (piece : string) (rest : list string) :
  piece <> "" -> parse_pieces (piece :: rest) = parse_pair piece :: parse_pieces rest.
Proof. destruct piece; [congruence | reflexivity]. Qed.

(** The query string that [URLSearchParams] writes for a list of
    well-formed names and values is read back by the form-urlencoded
    parser as that very list, whatever characters they contain. *)
Lemma written_query_read_back (params : list (string * string)) :
  (forall kv, In kv params -> well_formed (fst kv) /\ well_formed (snd kv)) ->
  parse_urlencoded (URLSearchParams_toString params) = params.
Proof.
  unfold parse_urlencoded, URLSearchParams_toString.
  induction params as [|[k v] params IH]; intro W; [reflexivity|].
  destruct (W (k, v) (or_introl eq_refl)) as [Wk Wv]. simpl fst in *. simpl snd in *.
  destruct (pair_text_shape k v) as [Hamp Hne].
  destruct params as [|kv' params].
  - change (join "&" (map (fun kv => urlencode (fst kv) ++ "=" ++ urlencode (snd kv))
                        [(k, v)]))
      with (urlencode k ++ "=" ++ urlencode v).
    rewrite split_whole by assumption.
    rewrite parse_pieces_cons by assumption. now rewrite pair_round_trip.
  - change (join "&" (map (fun kv => urlencode (fst kv) ++ "=" ++ urlencode (snd kv))
                        ((k, v) :: kv' :: params)))
      with ((urlencode k ++ "=" ++ urlencode v) ++
            String AMP (join "&" (map (fun kv => urlencode (fst kv) ++ "=" ++
                                                 urlencode (snd kv)) (kv' :: params)))).
    rewrite split_first by assumption.
    rewrite parse_pieces_cons, pair_round_trip by assumption.
    f_equal. apply IH. intros kv Hkv. apply W. now right.
Qed.

Lemma get_written (name value : string) (rest : list (string * string)) :
  well_formed name -> well_formed value ->
  (forall kv, In kv rest -> well_formed (fst kv) /\ well_formed (snd kv)) ->
  URLSearchParams_get name
    (URLSearchParams_parse
       ("?" ++ URLSearchParams_toString ((name, value) :: rest))) = Some value.
Proof.
  intros Wn Wv Wr.
  change (URLSearchParams_parse ("?" ++ URLSearchParams_toString ((name, value) :: rest)))
    with (parse_urlencoded (URLSearchParams_toString ((name, value) :: rest))).
  rewrite written_query_read_back.
  - simpl. now rewrite String.eqb_refl.
  - intros kv [<-|H]; auto.
Qed.

Lemma cut_whole (sep : ascii) (a : string) :
  has_char sep a = false -> cut sep a = (a, None).
Proof.
  induction a as [|c a IH]; simpl; [reflexivity|].
  intro H. apply orb_false_elim in H as [Hc Ha].
  rewrite Ascii.eqb_sym, Hc, (IH Ha). reflexivity.
Qed.

Lemma has_char_first (sep : ascii) (s : string) :
  has_char sep s = true ->
  exists a b, s = a ++ String sep b /\ has_char sep a = false.
Proof.
  induction s as [|c s IH]; simpl; [discriminate|].
  destruct (Ascii.eqb sep c) eqn:E; simpl.
  - intros _. apply Ascii.eqb_eq in E as <-. now exists "", s.
  - intro H. destruct (IH H) as (a & b & -> & Ha).
    exists (String c a), b. split; [reflexivity|]. simpl. now rewrite E.
Qed.

Lemma byte_no_mark (c : ascii) :
  has_char HASH (urlencode_byte c) = false /\
  has_char QUESTION (urlencode_byte c) = false.
Proof. each_byte c; split; reflexivity. Qed.

Lemma urlencode_no_mark (s : string) :
  has_char HASH (urlencode s) = false /\ has_char QUESTION (urlencode s) = false.
Proof.
  induction s as [|c s [IH1 IH2]]; simpl; [split; reflexivity|].
  rewrite !has_char_append, IH1, IH2.
  destruct (byte_no_mark c) as [-> ->]. split; reflexivity.
Qed.

(** A written query string holds no number sign and no question mark. *)
Lemma written_query_no_mark (params : list (string * string)) :
  has_char HASH (URLSearchParams_toString params) = false /\
  has_char QUESTION (URLSearchParams_toString params) = false.
Proof.
  unfold URLSearchParams_toString.
  induction params as [|[k v] rest [IH1 IH2]]; [split; reflexivity|].
  assert (P : has_char HASH (urlencode k ++ "=" ++ urlencode v) = false /\
              has_char QUESTION (urlencode k ++ "=" ++ urlencode v) = false).
  { rewrite !has_char_append.
    destruct (urlencode_no_mark k) as [-> ->], (urlencode_no_mark v) as [-> ->].
    split; reflexivity. }
  destruct P as [P1 P2].
  destruct rest as [|kv rest]; [split; assumption|].
  change (join "&" (map (fun kv0 => urlencode (fst kv0) ++ "=" ++ urlencode (snd kv0))
                      ((k, v) :: kv :: rest)))
    with ((urlencode k ++ "=" ++ urlencode v) ++ "&" ++
          join "&" (map (fun kv0 => urlencode (fst kv0) ++ "=" ++ urlencode (snd kv0))
                      (kv :: rest))).
  remember (join "&" (map (fun kv0 => urlencode (fst kv0) ++ "=" ++ urlencode (snd kv0))
                        (kv :: rest))) as tail.
  rewrite !(has_char_append _ (urlencode k ++ "=" ++ urlencode v)), P1, P2.
  simpl. rewrite IH1, IH2. split; reflexivity.
Qed.

(** What the reader of a request URL takes for its query. *)
Lemma request_query (u q : string) :
  has_char HASH u = false -> has_char HASH q = false ->
  has_char QUESTION q = false ->
  (has_char QUESTION u = false -> query_of (u ++ "?" ++ q) = Some q) /\
  (has_char QUESTION u = true ->
   exists a b, u = a ++ "?" ++ b /\ has_char QUESTION a = false /\
               query_of (u ++ "?" ++ q) = Some (b ++ "?" ++ q)).
Proof.
  intros Hu Hq _. unfold query_of.
  assert (Hall : has_char HASH (u ++ "?" ++ q) = false).
  { rewrite !has_char_append, Hu, Hq. reflexivity. }
  rewrite (cut_whole _ _ Hall). simpl fst. split.
  - intro Hn. exact (f_equal snd (cut_first QUESTION u q Hn)).
  - intro Hy. destruct (has_char_first _ _ Hy) as (a & b & -> & Ha).
    exists a, b. split; [reflexivity|]. split; [exact Ha|].
    rewrite append_assoc.
    exact (f_equal snd (cut_first QUESTION a (b ++ "?" ++ q) Ha)).
Qed.

(** X6: the GET revision of [addRSVPToSheets] issues one request, to the
    URL followed by a question mark and the written parameters.  When
    the URL itself holds no question mark and no number sign, the query
    of the request, read by the form-urlencoded parser, is exactly the
    seven parameters action, name, email, attending, guests, message and
    timestamp with the texts of the entry: no character of a field can
    add, drop or change a parameter.  When the URL already holds a
    question mark (and no number sign), the query of the request is the
    URL's own query, a question mark and the written parameters, so it
    is not the query that was written. *)
Theorem add_request_decodes (u : string)
    (remote : list request -> request -> option response) (now : nat -> string)
    (entry : value) (w : world) :
  u <> "" -> is_nullish entry = false ->
  let r := Reference.own_props entry in
  let text := fun k => ToString (Reference.first_truthy [lookup k r] (VStr "")) in
  let params :=
    [ ("action", "add"); ("name", text "name"); ("email", text "email");
      ("attending", text "attending");
      ("guests", if ToBoolean (lookup "guests" r)
                 then ToString (lookup "guests" r) else "0");
      ("message", text "message"); ("timestamp", now (clock_reads w)) ] in
  (forall kv, In kv params -> well_formed (snd kv)) ->
  exists url,
    net_log (snd (addRSVPToSheets (Some u) remote now entry w)) =
      (net_log w ++ [GET url])%list /\
    url = u ++ "?" ++ URLSearchParams_toString params /\
    (has_char HASH u = false -> has_char QUESTION u = false ->
     exists q, query_of url = Some q /\ parse_urlencoded q = params) /\
    (has_char HASH u = false -> has_char QUESTION u = true ->
     exists a b q,
       u = a ++ "?" ++ b /\ has_char QUESTION a = false /\
       query_of url = Some q /\
       q = b ++ "?" ++ URLSearchParams_toString params /\
       q <> URLSearchParams_toString params).
Proof.
  intros Hu He r text params W.
  exists (u ++ "?" ++ URLSearchParams_toString params).
  destruct (written_query_no_mark params) as [Q1 Q2].
  pose proof (fun Hh => request_query u (URLSearchParams_toString params) Hh Q1 Q2)
    as R.
  split; [|split; [reflexivity|split]].
  - unfold addRSVPToSheets. apply String.eqb_neq in Hu. rewrite Hu.
    unfold bind. rewrite Requests.add_params_eval, He. cbv beta iota zeta.
    unfold try_catch, bind, fetch, throw, json, ret. simpl.
    destruct (remote _ _) as [res|]; simpl; [|reflexivity].
    destruct (res_ok res); simpl; [|reflexivity].
    destruct (res_json res); reflexivity.
  - intros Hh Hn. destruct (R Hh) as [R1 _].
    exists (URLSearchParams_toString params). split; [now apply R1|].
    apply written_query_read_back. intros kv Hkv. split; [|now apply W].
    simpl in Hkv.
    repeat (destruct Hkv as [<-|Hkv]; [reflexivity|]). contradiction.
  - intros Hh Hy. destruct (R Hh) as [_ R2]. destruct (R2 Hy) as (a & b & E & Ha & Q).
    exists a, b, (b ++ "?" ++ URLSearchParams_toString params).
    split; [exact E|]. split; [exact Ha|]. split; [exact Q|].
    split; [reflexivity|].
    intro K. apply (f_equal String.length) in K.
    rewrite length_append in K. simpl in K. lia.
Qed.

Lemma add_request_decodes_witness :
  exists url q,
    net_log (snd (addRSVPToSheets (Some "https://script.example/exec")
                    Reference.ack_remote Reference.fixed_clock
                    (VObj [("name", VStr "Ana & Bo"); ("email", VStr "a+b@x.com");
                           ("attending", VStr "Yes"); ("guests", VNum two);
                           ("message", VStr "100% = sure?")])
                    initial_world)) = [GET url] /\
    query_of url = Some q /\
    parse_urlencoded q =
      [ ("action", "add"); ("name", "Ana & Bo"); ("email", "a+b@x.com");
        ("attending", "Yes"); ("guests", "2"); ("message", "100% = sure?");
        ("timestamp", "2025-01-01T00:00:00.000Z") ].
Proof.
  destruct (add_request_decodes "https://script.example/exec"
              Reference.ack_remote Reference.fixed_clock
              (VObj [("name", VStr "Ana & Bo"); ("email", VStr "a+b@x.com");
                     ("attending", VStr "Yes"); ("guests", VNum two);
                     ("message", VStr "100% = sure?")])
              initial_world ltac:(discriminate) eq_refl
              ltac:(intros kv Hkv; simpl in Hkv;
                    repeat (destruct Hkv as [<-|Hkv]; [reflexivity|]);
                    contradiction))
    as (url & L & _ & P & _).
  destruct (P eq_refl eq_refl) as (q & Q & R).
  exists url, q. split; [exact L|]. split; [exact Q | exact R].
Defined.

End UrlFacts.

(** ** Admin gating *)
Module AdminFacts.

Import JS Gateway Admin Url.

Section Config.

Variable cfg : option string.

Lemma expected_not_empty : expected_code cfg <> "".
Proof.
  unfold expected_code.
  destruct (String.eqb_spec (ADMIN_CODE cfg) ""); simpl; [discriminate | assumption].
Qed.

Lemma detect_token (text : string) :
  detectAdminFromURL cfg (Some text) =
  match URLSearchParams_get "admin" (URLSearchParams_parse text) with
  | Some token => String.eqb token (expected_code cfg)
  | None => false
  end.
Proof.
  unfold detectAdminFromURL, expected_code.
  destruct (URLSearchParams_get "admin" (URLSearchParams_parse text)) as [token|];
    [|reflexivity].
  destruct (String.eqb_spec token "") as [->|Hne].
  - destruct (String.eqb_spec (ADMIN_CODE cfg) "") as [->|Hc]; simpl; [reflexivity|].
    symmetry. apply String.eqb_neq. congruence.
  - destruct (negb (String.eqb (ADMIN_CODE cfg) "")); reflexivity.
Qed.

(** X8: the URL and the login dialog accept the same codes: the
    configured admin code, or 1 when none is configured, and never the
    empty code.  A link that carries the code percent-encoded under
    [admin] grants admin exactly when the code is the expected one. *)
Theorem url_and_dialog_agree (text : string) (s : session) :
  (forall token,
     URLSearchParams_get "admin" (URLSearchParams_parse text) = Some token ->
     code s = token -> isAdmin s = false ->
     detectAdminFromURL cfg (Some text) = isAdmin (submitLogin cfg s)) /\
  (URLSearchParams_get "admin" (URLSearchParams_parse text) = None ->
   detectAdminFromURL cfg (Some text) = false) /\
  (forall c, well_formed c ->
     detectAdminFromURL cfg (Some ("?admin=" ++ Gateway.urlencode c)) =
     String.eqb c (expected_code cfg)) /\
  (cfg = None \/ cfg = Some "" ->
   forall c, isAdmin (submitLogin cfg s) = true -> isAdmin s = false -> code s = c ->
             c = "1") /\
  (code s = "" -> isAdmin s = false -> isAdmin (submitLogin cfg s) = false).
Proof.
  split; [|split; [|split; [|split]]].
  - intros token Ht Hc Hs. rewrite detect_token, Ht.
    unfold submitLogin. rewrite Hc.
    destruct (String.eqb token (expected_code cfg)); [reflexivity|].
    simpl. now rewrite Hs.
  - intro Ht. now rewrite detect_token, Ht.
  - intros c Wc. rewrite detect_token.
    change ("?admin=" ++ Gateway.urlencode c)
      with ("?" ++ URLSearchParams_toString [("admin", c)]).
    rewrite UrlFacts.get_written; [reflexivity | reflexivity | assumption |].
    intros kv [].
  - intros Hcfg c Ha Hs Hc. unfold submitLogin in Ha.
    assert (E : expected_code cfg = "1") by (destruct Hcfg as [-> | ->]; reflexivity).
    rewrite E, Hc in Ha.
    destruct (String.eqb_spec c "1"); [assumption|].
    simpl in Ha. congruence.
  - intros Hc Hs. unfold submitLogin. rewrite Hc.
    destruct (String.eqb_spec "" (expected_code cfg)) as [E|_]; [|exact Hs].
    exfalso. now apply expected_not_empty.
Qed.

(** X9: the session storage and the [isAdmin] state agree after the
    mount effect, a confirmed login and a logout, whatever the state
    before, and a login attempt or the closing of the dialog keeps them
    in agreement. *)
Theorem session_in_step (s : session) (text : string) :
  in_step (onMount cfg (Some text) s) /\
  in_step (confirmAdminLogin s) /\
  in_step (logoutAdmin s) /\
  (in_step s ->
   in_step (submitLogin cfg s) /\ in_step (onDialogOpenChange s) /\
   in_step (onMount cfg None s)).
Proof.
  split; [|split; [|split]]; try reflexivity.
  - unfold onMount. destruct (detectAdminFromURL cfg (Some text)); reflexivity.
  - intro H. split; [|split].
    + unfold submitLogin. destruct (String.eqb (code s) (expected_code cfg));
        [reflexivity | exact H].
    + unfold onDialogOpenChange. destruct (showAdminDialog s); exact H.
    + exact H.
Qed.

(** X10: a grant from the URL outlives a reload without token, and so
    does a login through the dialog; after a logout only a valid token
    makes an admin again. *)
Theorem grant_persists_until_logout (s : session) (text text' : string) :
  detectAdminFromURL cfg (Some text') = false ->
  (detectAdminFromURL cfg (Some text) = true ->
   isAdmin (onMount cfg (Some text') (onMount cfg (Some text) s)) = true) /\
  (code s = expected_code cfg ->
   isAdmin (onMount cfg (Some text') (submitLogin cfg s)) = true) /\
  isAdmin (onMount cfg (Some text') (logoutAdmin s)) = false /\
  isAdmin (onMount cfg (Some text) (logoutAdmin s)) = detectAdminFromURL cfg (Some text).
Proof.
  intro Hno. split; [|split; [|split]].
  - intro Hyes. unfold onMount. rewrite Hyes, Hno. reflexivity.
  - intro Hc. unfold submitLogin. rewrite Hc, String.eqb_refl.
    unfold onMount. rewrite Hno. reflexivity.
  - unfold onMount. rewrite Hno. reflexivity.
  - unfold onMount. destruct (detectAdminFromURL cfg (Some text)); reflexivity.
Qed.

End Config.

Lemma url_and_dialog_agree_witness :
  detectAdminFromURL (Some "s3cret & more") (Some "?admin=s3cret+%26+more") = true.
Proof.
  apply (proj1 (proj2 (proj2 (url_and_dialog_agree (Some "s3cret & more") ""
                                {| stored := None; isAdmin := false;
                                   showAdminDialog := false; code := "";
                                   error := "" |}))) "s3cret & more").
  reflexivity.
Defined.

Lemma session_in_step_witness :
  in_step (submitLogin None {| stored := None; isAdmin := false;
                               showAdminDialog := true; code := "1"; error := "" |}).
Proof.
  apply (proj1 (proj2 (proj2 (proj2
           (session_in_step None
              {| stored := None; isAdmin := false; showAdminDialog := true;
                 code := "1"; error := "" |} ""))) eq_refl)).
Defined.

Lemma grant_persists_until_logout_witness :
  isAdmin (onMount None (Some "")
             (onMount None (Some "?admin=1")
                {| stored := None; isAdmin := false; showAdminDialog := false;
                   code := ""; error := "" |})) = true.
Proof.
  apply (proj1 (grant_persists_until_logout None _ "?admin=1" "" eq_refl)).
  reflexivity.
Defined.

End AdminFacts.
(** ** The RSVP dialog and the submission handler *)
Module HomeFacts.

Import JS Gateway Home.

(** *** The form *)

Lemma lookup_set_prop_same (k : string) (v : value) (o : object) :
  lookup k (set_prop k v o) = v.
Proof.
  induction o as [|[k' v'] o IH]; simpl.
  - now rewrite String.eqb_refl.
  - destruct (String.eqb_spec k' k) as [->|Hne]; simpl.
    + now rewrite String.eqb_refl.
    + destruct (String.eqb_spec k k'); [congruence | exact IH].
Qed.

Lemma lookup_set_prop_other (k k0 : string) (v : value) (o : object) :
  k0 <> k -> lookup k0 (set_prop k v o) = lookup k0 o.
Proof.
  intro Hne. induction o as [|[k' v'] o IH]; simpl.
  - destruct (String.eqb_spec k0 k); [congruence | reflexivity].
  - destruct (String.eqb_spec k' k) as [->|Hk]; simpl.
    + destruct (String.eqb_spec k0 k); [congruence | reflexivity].
    + destruct (String.eqb_spec k0 k'); [reflexivity | exact IH].
Qed.

Lemma keys_set_prop (k : string) (v : value) (o : object) :
  In k (keys o) -> keys (set_prop k v o) = keys o.
Proof.
  induction o as [|[k' v'] o IH]; simpl; [contradiction|].
  intros [->|Hin].
  - now rewrite String.eqb_refl.
  - destruct (String.eqb_spec k' k) as [->|Hk]; simpl; [reflexivity|].
    f_equal. now apply IH.
Qed.

(** X11: [update] changes one field of the form and nothing else: the
    field reads back as the new value, every other field reads as
    before, a field the form already has keeps its place, so the form
    keeps its fields and their order, and nothing else on the page is
    touched. *)
Theorem update_one_field (k : string) (v : value) (p : page) :
  let p' := snd (update k v p) in
  fst (update k v p) = Return tt /\
  lookup k (form p') = v /\
  (forall k0, k0 <> k -> lookup k0 (form p') = lookup k0 (form p)) /\
  (In k (keys (form p)) -> keys (form p') = keys (form p)) /\
  gw p' = gw p /\ saveState p' = saveState p /\ alerts p' = alerts p /\
  showRSVPDialog p' = showRSVPDialog p.
Proof.
  simpl. split; [reflexivity|]. split; [apply lookup_set_prop_same|].
  split; [intros k0 H; now apply lookup_set_prop_other|].
  split; [apply keys_set_prop|]. repeat split.
Qed.

Lemma update_one_field_witness :
  keys (form (snd (update "email" (VStr "a@x.com")
                     {| gw := initial_world; saveState := "idle"; alerts := [];
                        form := empty_form; showRSVPDialog := true |}))) =
  ["name"; "email"; "attending"; "guests"; "message"].
Proof.
  apply (proj1 (proj2 (proj2 (proj2
           (update_one_field "email" (VStr "a@x.com")
              {| gw := initial_world; saveState := "idle"; alerts := [];
                 form := empty_form; showRSVPDialog := true |}))))).
  simpl. tauto.
Defined.

(** *** The guests input *)

Lemma digit_code (c : ascii) :
  Num.is_digit c = true -> (48 <= Num.code c <= 57)%nat.
Proof.
  unfold Num.is_digit. intro H. apply andb_true_iff in H as [H1 H2].
  apply Nat.leb_le in H1, H2. lia.
Qed.

Lemma digit_no_space (c : ascii) (r : string) :
  Num.is_digit c = true -> Num.starts_ws (String c r) = false.
Proof.
  intro H. apply digit_code in H. unfold Num.starts_ws.
  assert (W1 : Num.is_ws1 (Num.code c) = false).
  { unfold Num.is_ws1.
    destruct (Nat.leb_spec 9 (Num.code c)), (Nat.leb_spec (Num.code c) 13),
      (Nat.eqb_spec (Num.code c) 32); simpl; try reflexivity; lia. }
  rewrite W1. simpl.
  assert (E1 : (Num.code c =? 194)%nat = false) by (apply Nat.eqb_neq; lia).
  assert (E2 : (Num.code c =? 225)%nat = false) by (apply Nat.eqb_neq; lia).
  assert (E3 : (Num.code c =? 226)%nat = false) by (apply Nat.eqb_neq; lia).
  assert (E4 : (Num.code c =? 227)%nat = false) by (apply Nat.eqb_neq; lia).
  assert (E5 : (Num.code c =? 239)%nat = false) by (apply Nat.eqb_neq; lia).
  destruct r as [|b r]; [reflexivity|].
  unfold Num.is_ws2. rewrite E1. simpl.
  destruct r as [|d r]; [reflexivity|].
  unfold Num.is_ws3. rewrite E2, E3, E4, E5. reflexivity.
Qed.

Lemma digits_only_head (typed : string) :
  digits_only typed = "" \/
  exists c rest, digits_only typed = String c (digits_only rest) /\
                 Num.is_digit c = true.
Proof.
  induction typed as [|c r IH]; simpl; [now left|].
  destruct (Num.is_digit c) eqn:D; [|exact IH].
  right. now exists c, r.
Qed.

Lemma digits_no_space (typed : string) :
  Num.skip_ws (digits_only typed) = digits_only typed /\
  Num.span_non_ws (digits_only typed) = (digits_only typed, "").
Proof.
  split.
  - destruct (digits_only_head typed) as [->|(c & r & -> & D)]; [reflexivity|].
    pose proof (digit_no_space c (digits_only r) D) as W.
    unfold Num.starts_ws in W. unfold Num.skip_ws; fold Num.skip_ws.
    destruct (Num.is_ws1 (Num.code c)); [discriminate|]. simpl in W.
    destruct (digits_only r) as [|b r2]; [reflexivity|].
    destruct (Num.is_ws2 (Num.code c) (Num.code b)); [discriminate|]. simpl in W.
    destruct r2 as [|d r3]; [reflexivity|].
    now rewrite W.
  - induction typed as [|c r IH]; simpl; [reflexivity|].
    destruct (Num.is_digit c) eqn:D; [|exact IH].
    change (Num.span_non_ws (String c (digits_only r)))
      with (if Num.starts_ws (String c (digits_only r)) then ("", String c (digits_only r))
            else let '(body, rest) := Num.span_non_ws (digits_only r) in
                 (String c body, rest)).
    rewrite (digit_no_space c _ D), IH. reflexivity.
Qed.

Lemma digits_span (typed : string) :
  Num.span Num.is_digit (digits_only typed) = (digits_only typed, "").
Proof.
  induction typed as [|c r IH]; simpl; [reflexivity|].
  destruct (Num.is_digit c) eqn:D; [|exact IH].
  simpl. now rewrite D, IH.
Qed.

Lemma digit_val_digit (c : ascii) :
  Num.is_digit c = true ->
  Num.digit_val 10 c = Some (Z.of_nat (Num.code c) - 48)%Z.
Proof.
  intro H. apply digit_code in H. unfold Num.digit_val.
  destruct (Z.leb_spec 48 (Z.of_nat (Num.code c))); [|lia].
  destruct (Z.leb_spec (Z.of_nat (Num.code c)) 57); [|lia]. simpl.
  destruct (Z.leb_spec 0 (Z.of_nat (Num.code c) - 48)); [|lia].
  destruct (Z.ltb_spec (Z.of_nat (Num.code c) - 48) 10); [|lia]. reflexivity.
Qed.

Lemma digits_value (typed : string) (acc : Z) :
  (0 <= acc)%Z ->
  exists n, Num.digits_val 10 acc (digits_only typed) = Some n /\ (acc <= n)%Z.
Proof.
  revert acc. induction typed as [|c r IH]; simpl; intros acc Hacc.
  - exists acc. split; [reflexivity | lia].
  - destruct (Num.is_digit c) eqn:D; [|now apply IH].
    simpl. rewrite (digit_val_digit c D).
    pose proof (digit_code c D) as B.
    destruct (IH (acc * 10 + (Z.of_nat (Num.code c) - 48))%Z) as (n & E & L); [lia|].
    exists n. split; [exact E | lia].
Qed.

Lemma digit_literal (c : ascii) (r : string) :
  Num.is_digit c = true ->
  match r with String c2 _ => Num.is_digit c2 = true | EmptyString => True end ->
  Num.parse_literal (String c r) = Num.parse_unsigned false (String c r).
Proof.
  intros D1 D2.
  destruct c as [[|] [|] [|] [|] [|] [|] [|] [|]]; try discriminate D1;
    try reflexivity.
  destruct r as [|c2 r]; [reflexivity|].
  destruct c2 as [[|] [|] [|] [|] [|] [|] [|] [|]]; try discriminate D2;
    reflexivity.
Qed.

Lemma of_mv_integer (n : Z) : (0 <= n)%Z -> Num.of_mv false n 0 = Num.of_Z n.
Proof.
  intro H. destruct n as [|s|s]; [reflexivity| |lia].
  unfold Num.of_mv, Num.of_Z, Num.round_dec.
  change (0 <=? 0)%Z with true. cbv iota.
  change (10 ^ 0)%Z with 1%Z. rewrite Z.mul_1_r. reflexivity.
Qed.

(** The number that [Number] reads from a text of decimal digits. *)
Lemma digits_number (typed : string) :
  exists n, (0 <= n)%Z /\
    Num.digits_val 10 0 (digits_only typed) = Some n /\
    ToNumber (VStr (digits_only typed)) = Num.of_Z n.
Proof.
  destruct (digits_value typed 0) as (n & E & L); [lia|].
  exists n. split; [exact L|]. split; [exact E|].
  unfold ToNumber, Num.StringToNumber.
  destruct (digits_no_space typed) as [S1 S2]. rewrite S1, S2. simpl.
  destruct (digits_only_head typed) as [Z0|(c & r & Hd & D)].
  - rewrite Z0 in *. simpl in E. injection E as <-. reflexivity.
  - assert (Hlit : Num.parse_literal (digits_only typed) =
                   Num.parse_unsigned false (digits_only typed)).
    { rewrite Hd. apply digit_literal; [exact D|].
      destruct (digits_only_head r) as [->|(c2 & r2 & -> & D2)]; [exact I | exact D2]. }
    replace (match digits_only typed with
             | "" => zero
             | String _ _ => Num.parse_literal (digits_only typed)
             end) with (Num.parse_literal (digits_only typed))
      by (rewrite Hd; reflexivity).
    rewrite Hlit. unfold Num.parse_unsigned.
    assert (Hinf : String.eqb (digits_only typed) "Infinity" = false).
    { apply String.eqb_neq. rewrite Hd. intro K. injection K as -> _.
      discriminate D. }
    rewrite Hinf, digits_span. rewrite StrFacts.append_nil_r.
    destruct (digits_only typed) as [|c0 r0]; [discriminate Hd|].
    rewrite E. simpl. apply of_mv_integer, L.
Qed.

(** X12: whatever is typed into the guests input, the form gets a
    number: the one written by the decimal digits of the text, in their
    order, every other character being dropped, and zero when the text
    has no digit.  No other field changes. *)
Theorem guests_input_number (typed : string) (p : page) :
  let p' := snd (guestsChange typed p) in
  exists n, (0 <= n)%Z /\
    Num.digits_val 10 0 (digits_only typed) = Some n /\
    lookup "guests" (form p') = VNum (Num.of_Z n) /\
    (digits_only typed = "" -> n = 0%Z) /\
    (forall k, k <> "guests" -> lookup k (form p') = lookup k (form p)).
Proof.
  destruct (digits_number typed) as (n & L & E & N).
  exists n. split; [exact L|]. split; [exact E|].
  unfold guestsChange. rewrite N. simpl.
  split; [apply lookup_set_prop_same|].
  split.
  - intro Z0. rewrite Z0 in E. simpl in E. now injection E as <-.
  - intros k Hk. now apply lookup_set_prop_other.
Qed.

Lemma guests_input_number_witness :
  lookup "guests"
    (form (snd (guestsChange "2 adults"
                  {| gw := initial_world; saveState := "idle"; alerts := [];
                     form := empty_form; showRSVPDialog := true |}))) =
  VNum (Num.of_Z 2).
Proof.
  destruct (guests_input_number "2 adults"
              {| gw := initial_world; saveState := "idle"; alerts := [];
                 form := empty_form; showRSVPDialog := true |})
    as (n & _ & E & G & _).
  change (Some 2%Z = Some n) in E. injection E as <-. exact G.
Defined.

(** *** Submitting *)

Lemma validate_form (f : object) :
  validateRSVP (VObj f) =
  Return (ToBoolean (lookup "name" f) && ToBoolean (lookup "email" f)).
Proof.
  unfold validateRSVP, and_then, omap, getProp. simpl.
  destruct (ToBoolean (lookup "name" f)) eqn:N; simpl; [reflexivity|].
  now rewrite N.
Qed.

Section Deployment.

Variable url : option string.
Variable remote : list request -> request -> option response.
Variable now : nat -> string.

(** The whole effect of [handleRSVPSubmit]. *)
Lemma handleRSVPSubmit_run (isAdmin : bool) (entry : value) (p : page) :
  let r := addRSVPToSheets url remote now entry (gw p) in
  let p' := snd (handleRSVPSubmit url remote now isAdmin entry p) in
  fst (handleRSVPSubmit url remote now isAdmin entry p) = Return tt /\
  form p' = form p /\ showRSVPDialog p' = showRSVPDialog p /\
  match fst r with
  | Return _ =>
      saveState p' = "success" /\ alerts p' = alerts p /\
      gw p' = snd (refreshRSVPs url remote isAdmin (snd r))
  | Throw _ =>
      saveState p' = "error" /\ alerts p' = (alerts p ++ [SORRY])%list /\
      gw p' = snd r
  end.
Proof.
  unfold handleRSVPSubmit, ptry_catch, pbind, setSaveState, plift, alert, pret.
  simpl.
  destruct (addRSVPToSheets url remote now entry (gw p)) as [[v|e] w1]; simpl.
  - destruct isAdmin; simpl.
    + pose proof (GatewayFacts.refreshRSVPs_run url remote true w1) as (R & _).
      destruct (refreshRSVPs url remote true w1) as [[[]|e] w2]; simpl in *;
        [|discriminate R].
      repeat split.
    + repeat split.
  - repeat split.
Qed.

(** X13: [handleRSVPSubmit] never throws and leaves the form alone.
    The save state it ends in tells whether [addRSVPToSheets] returned:
    success, with no alert, when it did, whatever the refresh of the
    list that follows for an admin runs into; error, with the one
    apology alert and no further request, when it threw. *)
Theorem submit_outcome (isAdmin : bool) (entry : value) (p : page) :
  let r := addRSVPToSheets url remote now entry (gw p) in
  let p' := snd (handleRSVPSubmit url remote now isAdmin entry p) in
  fst (handleRSVPSubmit url remote now isAdmin entry p) = Return tt /\
  form p' = form p /\ showRSVPDialog p' = showRSVPDialog p /\
  match fst r with
  | Return _ =>
      saveState p' = "success" /\ alerts p' = alerts p /\
      gw p' = snd (refreshRSVPs url remote isAdmin (snd r))
  | Throw _ =>
      saveState p' = "error" /\ alerts p' = (alerts p ++ [SORRY])%list /\
      gw p' = snd r
  end.
Proof. exact (handleRSVPSubmit_run isAdmin entry p). Qed.

(** X14: [handleSubmit] lets nothing through without a name and an
    email: an invalid form gives the one alert that asks for them and
    nothing else, no request, no reading of the clock and no change of
    the save state.  This is the case right after [handleClose], which
    empties the form. *)
Theorem invalid_form_blocked (isAdmin : bool) (p : page) :
  ToBoolean (lookup "name" (form p)) && ToBoolean (lookup "email" (form p)) = false ->
  handleSubmit url remote now isAdmin p =
    (Return tt, {| gw := gw p; saveState := saveState p;
                   alerts := alerts p ++ [PLEASE]; form := form p;
                   showRSVPDialog := showRSVPDialog p |}) /\
  handleSubmit url remote now isAdmin (snd (handleClose p)) =
    (Return tt, {| gw := gw p; saveState := "idle";
                   alerts := alerts p ++ [PLEASE]; form := empty_form;
                   showRSVPDialog := false |}).
Proof.
  intro H. split.
  - unfold handleSubmit, pbind. rewrite validate_form, H. reflexivity.
  - reflexivity.
Qed.

End Deployment.

Lemma invalid_form_blocked_witness :
  handleSubmit (Some "https://script.example/exec")
    Reference.ack_remote Reference.fixed_clock false
    {| gw := initial_world; saveState := "idle"; alerts := [];
       form := set_prop "name" (VStr "Ana") empty_form; showRSVPDialog := true |} =
  (Return tt, {| gw := initial_world; saveState := "idle"; alerts := [PLEASE];
                 form := set_prop "name" (VStr "Ana") empty_form;
                 showRSVPDialog := true |}).
Proof.
  apply (proj1 (invalid_form_blocked (Some "https://script.example/exec")
                  Reference.ack_remote Reference.fixed_clock false
                  {| gw := initial_world; saveState := "idle"; alerts := [];
                     form := set_prop "name" (VStr "Ana") empty_form;
                     showRSVPDialog := true |} eq_refl)).
Defined.

(** X15: a form with a name and an email, submitted where the URL is
    set, reads the clock twice and sends the add request first: its
    query carries the name and the email of the form as they are, and as
    timestamp the second reading of the clock, not the one that
    [handleSubmit] put into the entry.  For a visitor who is no admin
    that request is the only one. *)
Theorem valid_form_request (u : string)
    (remote : list request -> request -> option response) (now : nat -> string)
    (isAdmin : bool) (p : page) :
  u <> "" ->
  ToBoolean (lookup "name" (form p)) = true ->
  ToBoolean (lookup "email" (form p)) = true ->
  let f := form p in
  let text := fun k => ToString (Reference.first_truthy [lookup k f] (VStr "")) in
  let params :=
    [ ("action", "add"); ("name", ToString (lookup "name" f));
      ("email", ToString (lookup "email" f)); ("attending", text "attending");
      ("guests", if ToBoolean (lookup "guests" f)
                 then ToString (lookup "guests" f) else "0");
      ("message", text "message");
      ("timestamp", now (S (clock_reads (gw p)))) ] in
  let p' := snd (handleSubmit (Some u) remote now isAdmin p) in
  fst (handleSubmit (Some u) remote now isAdmin p) = Return tt /\
  clock_reads (gw p') = S (S (clock_reads (gw p))) /\
  exists rest,
    net_log (gw p') =
      (net_log (gw p) ++ GET (u ++ "?" ++ URLSearchParams_toString params) :: rest)%list /\
    (isAdmin = false -> rest = []).
Proof.
  intros Hu Hn He f text params. subst f.
  set (stamped := VObj (set_prop "timestamp" (VStr (now (clock_reads (gw p))))
                          (form p))).
  set (w1 := {| net_log := net_log (gw p); clock_reads := S (clock_reads (gw p));
                rsvps := rsvps (gw p); loading := loading (gw p) |}).
  set (p1 := {| gw := w1; saveState := saveState p; alerts := alerts p;
                form := form p; showRSVPDialog := showRSVPDialog p |}).
  assert (Hrun : handleSubmit (Some u) remote now isAdmin p =
                 handleRSVPSubmit (Some u) remote now isAdmin stamped p1).
  { unfold handleSubmit, pbind. rewrite validate_form, Hn, He. reflexivity. }
  rewrite Hrun.
  assert (W : snd (addRSVPToSheets (Some u) remote now stamped w1) =
              {| net_log := net_log (gw p) ++
                            [GET (u ++ "?" ++ URLSearchParams_toString params)];
                 clock_reads := S (S (clock_reads (gw p)));
                 rsvps := rsvps (gw p); loading := loading (gw p) |}).
  { rewrite (GatewayFacts.addRSVP_GET_world (Some u) remote now u stamped w1
               eq_refl Hu eq_refl).
    unfold stamped. simpl Reference.own_props.
    rewrite !lookup_set_prop_other by discriminate.
    simpl Reference.first_truthy. rewrite Hn, He. reflexivity. }
  pose proof (handleRSVPSubmit_run (Some u) remote now isAdmin stamped p1)
    as (R & _ & _ & G).
  cbv zeta in G. split; [exact R|].
  change (gw p1) with w1 in G.
  destruct (fst (addRSVPToSheets (Some u) remote now stamped w1)).
  - destruct G as (_ & _ & G). rewrite G, W.
    match goal with |- context [refreshRSVPs _ _ _ ?w] =>
      pose proof (GatewayFacts.refreshRSVPs_run (Some u) remote isAdmin w)
        as (_ & C & N & _ & P)
    end.
    cbv zeta in C, N, P. rewrite C, N. split; [reflexivity|].
    destruct isAdmin; [destruct (isSheetsConfigured (Some u))|];
      cbn [andb net_log clock_reads].
    + exists [GET (Calls.list_url (Some u))]. rewrite <- app_assoc.
      split; [reflexivity | discriminate].
    + exists []. split; [reflexivity | discriminate].
    + exists []. split; reflexivity.
  - destruct G as (_ & _ & G). rewrite G, W. split; [reflexivity|].
    exists []. split; reflexivity.
Qed.

Lemma valid_form_request_witness :
  clock_reads (gw (snd (handleSubmit (Some "https://script.example/exec")
                          Reference.ack_remote Reference.fixed_clock true
                          {| gw := initial_world; saveState := "idle"; alerts := [];
                             form := set_prop "email" (VStr "a@x.com")
                                       (set_prop "name" (VStr "Ana") empty_form);
                             showRSVPDialog := true |}))) = 2%nat.
Proof.
  apply (proj1 (proj2 (valid_form_request "https://script.example/exec"
                  Reference.ack_remote Reference.fixed_clock true
                  {| gw := initial_world; saveState := "idle"; alerts := [];
                     form := set_prop "email" (VStr "a@x.com")
                               (set_prop "name" (VStr "Ana") empty_form);
                     showRSVPDialog := true |}
                  ltac:(discriminate) eq_refl eq_refl))).
Defined.

End HomeFacts.

(** ** Exports *)
Module ExportsFacts.

Import JS Gateway Reference Exports.
Import Str CsvRoundTrip.

Lemma canonical_values (row : object) :
  keys row = canonical_keys -> length (values row) = 6%nat.
Proof.
  intro H. unfold values. rewrite length_map.
  rewrite <- (length_map fst). fold (keys row). now rewrite H.
Qed.

(** The CSV text of a list of canonical records, decoded. *)
Lemma canonical_csv_decoded (rows : list object) :
  rows <> [] ->
  (forall row, In row rows -> keys row = canonical_keys) ->
  (forall row, In row rows -> guarded_cells (values row)) ->
  parseCSV (rowsToCSV rows) =
  canonical_keys :: map (fun row => map cell_text (values row)) rows.
Proof.
  intros Hne Hk Hg.
  assert (E : rowsToCSV rows =
              join (one LF) (map csv_line (map VStr canonical_keys :: map values rows))).
  { unfold rowsToCSV. destruct rows as [|r0 rows]; [contradiction|].
    simpl hd. rewrite (Hk r0) by now left.
    rewrite (header_line canonical_keys) by (repeat constructor).
    simpl map at 3. f_equal. rewrite map_map. reflexivity. }
  rewrite E, records_decoded.
  - change (map (map cell_text) (map VStr canonical_keys :: map values rows))
      with (map cell_text (map VStr canonical_keys)
            :: map (map cell_text) (map values rows)).
    rewrite texts_of_strings, map_map. reflexivity.
  - discriminate.
  - constructor.
    + split; [discriminate|]. repeat constructor.
    + apply Forall_forall. intros vs Hvs. apply in_map_iff in Hvs as (row & <- & Hrow).
      split; [|now apply Hg].
      pose proof (canonical_values row (Hk row Hrow)) as L.
      intro V. now rewrite V in L.
  - destruct rows as [|r0 rows]; [contradiction|].
    rewrite (last_cons_nonempty _ _ [] (values [])) by discriminate.
    rewrite (last_map values).
    assert (Hl : In (last (r0 :: rows) []) (r0 :: rows)).
    { destruct (exists_last (l := r0 :: rows)) as (l' & a & ->); [discriminate|].
      rewrite last_last. apply in_or_app. right. now left. }
    pose proof (canonical_values _ (Hk _ Hl)) as L.
    intro V. apply (f_equal (@length string)) in V. rewrite length_map in V.
    rewrite L in V. discriminate.
Qed.

Section Deployment.

Variable url : option string.
Variable remote : list request -> request -> option response.
Variable xlsx_write : list object -> outcome download.


End Deployment.


End ExportsFacts.


(** ** The photo upload page *)
Module QrPhotoFacts.

Import JS QrPhoto.

Section Files.

Variable file : Type.

Lemma filter_index_past (l : list file) (i index : nat) :
  (index < i)%nat -> filter_index_from file i index l = l.
Proof.
  revert i. induction l as [|f rest IH]; intros i Hi; simpl; [reflexivity|].
  destruct (Nat.eqb_spec i index); [lia|]. simpl. f_equal. apply IH. lia.
Qed.

Lemma filter_index_spec (l : list file) (i index : nat) :
  (i <= index)%nat ->
  filter_index_from file i index l =
  (firstn (index - i) l ++ skipn (S (index - i)) l)%list.
Proof.
  revert i. induction l as [|f rest IH]; intros i Hi; simpl.
  - now destruct (index - i)%nat.
  - destruct (Nat.eqb_spec i index) as [->|Hne]; simpl.
    + rewrite Nat.sub_diag. simpl. apply filter_index_past. lia.
    + rewrite IH by lia.
      replace (index - i)%nat with (S (index - S i)) by lia. reflexivity.
Qed.

(** X17: [removeFile] takes out the file at the given position and
    only that one: the files before it and after it stay, in order; a
    position past the end removes nothing; and removing the position
    that a newly picked file got gives back the selection as it was.
    The scanned code is not touched. *)
Theorem remove_one_file (index : nat) (u : upload file) :
  files file (removeFile file index u) =
    (firstn index (files file u) ++ skipn (S index) (files file u))%list /\
  scannedData file (removeFile file index u) = scannedData file u /\
  ((index < length (files file u))%nat ->
   S (length (files file (removeFile file index u))) = length (files file u)) /\
  ((length (files file u) <= index)%nat -> removeFile file index u = u) /\
  (forall f, removeFile file (length (files file u))
               (handleFilesChange file (Some [f]) u) = u).
Proof.
  assert (E : forall l, filter_index_from file 0 index l =
                        (firstn index l ++ skipn (S index) l)%list).
  { intro l. rewrite filter_index_spec by lia. now rewrite Nat.sub_0_r. }
  split; [apply E|]. split; [reflexivity|]. split; [|split].
  - intro H. simpl. rewrite E, length_app, length_firstn, length_skipn. lia.
  - intro H. destruct u as [d fs ns]. unfold removeFile. simpl in H |- *.
    rewrite E, firstn_all2, skipn_all2 by lia. now rewrite app_nil_r.
  - intro f. destruct u as [d fs ns]. unfold removeFile, handleFilesChange.
    simpl. rewrite (filter_index_spec _ 0) by lia.
    rewrite Nat.sub_0_r, firstn_app, skipn_app, Nat.sub_diag, firstn_all.
    rewrite skipn_all2 by lia.
    replace (S (length fs) - length fs)%nat with 1%nat by lia. simpl.
    now rewrite !app_nil_r.
Qed.

(** X18: [handleUpload] always leaves an empty selection.  With nothing
    selected it only gives the notice that says so and keeps the scanned
    code; with files selected it gives one notice and resets the scanned
    code, so the scanner shows again, and an upload repeated right away
    is refused.  A scan that yields nothing never replaces a code
    already scanned. *)
Theorem upload_clears_selection (u : upload file) (data : value) :
  files file (handleUpload file u) = [] /\
  length (notices file (handleUpload file u)) = S (length (notices file u)) /\
  (files file u = [] ->
   handleUpload file u =
     {| scannedData := scannedData file u; files := [];
        notices := (notices file u ++ ["No files selected!"])%list |}) /\
  (files file u <> [] ->
   ToBoolean (scannedData file (handleUpload file u)) = false) /\
  notices file (handleUpload file (handleUpload file u)) =
    (notices file (handleUpload file u) ++ ["No files selected!"])%list /\
  (ToBoolean data = false -> handleScan file data u = u) /\
  (ToBoolean (scannedData file u) = true ->
   ToBoolean (scannedData file (handleScan file data u)) = true).
Proof.
  unfold handleUpload, handleScan.
  destruct u as [d fs ns]. simpl.
  split; [now destruct fs|].
  split; [destruct fs; simpl; rewrite length_app; simpl; lia|].
  split; [now intros ->|].
  split; [now destruct fs|].
  split; [now destruct fs|].
  split; [now intros ->|].
  intro H. now destruct (ToBoolean data) eqn:T.
Qed.

End Files.

Lemma remove_one_file_witness :
  files nat (removeFile nat 1 {| scannedData := VStr "table-7"; files := [10; 20; 30]%nat;
                                 notices := [] |}) = [10; 30]%nat.
Proof.
  apply (proj1 (remove_one_file nat 1
                  {| scannedData := VStr "table-7"; files := [10; 20; 30]%nat;
                     notices := [] |})).
Defined.

Lemma upload_clears_selection_witness :
  ToBoolean (scannedData nat
               (handleUpload nat {| scannedData := VStr "table-7";
                                    files := [10; 20]%nat; notices := [] |})) = false.
Proof.
  apply (proj1 (proj2 (proj2 (proj2
           (upload_clears_selection nat
              {| scannedData := VStr "table-7"; files := [10; 20]%nat; notices := [] |}
              VNull))))).
  discriminate.
Defined.

End QrPhotoFacts.

(** ** What the list is made from *)
Module ListingFacts.

Import JS Gateway Reference Calls.
Local Open Scope js_scope.

Section Deployment.

Variable url : option string.
Variable remote : list request -> request -> option response.

Lemma fetched_cases (w : world) :
  fetched url remote w =
  if negb (isSheetsConfigured url) then Throw "SHEETS_URL_NOT_CONFIGURED"
  else
    match remote (net_log w) (GET (list_url url)) with
    | None => Throw "TypeError: Failed to fetch"
    | Some res =>
        if negb (res_ok res)
        then Throw ("LIST_FAILED_" ++ Num.toString (Num.of_Z (res_status res)))
        else
          match res_json res with
          | None => Throw "SyntaxError"
          | Some (VArr elems) => Return (VArr elems)
          | Some data =>
              (if is_nullish data then Return VUndef else getProp data "rows")
              <|> Return (VArr [])
          end
    end.
Proof.
  unfold fetched, fetchRSVPsFromSheets, list_url.
  destruct (isSheetsConfigured url); [|reflexivity]. simpl.
  unfold bind, fetch, throw, json, ret, lift. simpl.
  destruct (remote _ _) as [res|]; simpl; [|reflexivity].
  destruct (res_ok res); simpl; [|reflexivity].
  destruct (res_json res) as [data|]; simpl; [|reflexivity].
  destruct data; reflexivity.
Qed.

Lemma listed_from (w : world) (elems : list value) :
  fetched url remote w = Return (VArr elems) ->
  rsvps (snd (refreshRSVPs url remote true w)) =
  if existsb is_nullish elems then []
  else filter keepRow (map (fun row => normalize_exact (own_props row)) elems).
Proof.
  intro F. rewrite Normalisation.refreshRSVPs_rsvps, F. simpl.
  rewrite Normalisation.mapM_normalizeRow.
  now destruct (existsb is_nullish elems).
Qed.


End Deployment.


End ListingFacts.
